(** * Stack-walking capture correlation of goonit's [core] package

    Shallow embedding of [src/match/type.go] (package [core]): the symbol
    parser of [FuncInfo], the word-boundary prefix test [startsWith], the
    outward stack walk [BuildCallerStack], and the capture store of
    [BaseTest] ([Capture], [Captured], [CapturedOfType], [CapturedFrom],
    [CapturedOfTypeFromCall], [GetMockedCallName]).

    Go strings are byte strings; they are modelled as [String.string]
    (one [ascii] per byte).  Go [int] is modelled as [Z] with the 64-bit
    wrap-around written out where the code does arithmetic on it. *)

From Stdlib Require Import ZArith Ascii String List Lia.
From stdpp Require Import base list gmap strings pretty.
Import ListNotations.

Local Open Scope Z_scope.

(* ------------------------------------------------------------------ *)
(** ** Go standard library pieces used by the code *)

(** Byte value of a character of a Go string. *)
Definition byteZ (c : ascii) : Z := Z.of_nat (nat_of_ascii c).

(** [strings.HasPrefix(s, prefix)] *)
Definition HasPrefix (s prefix : string) : bool := String.prefix prefix s.

(** [strings.HasSuffix(s, suffix)] *)
Definition HasSuffix (s suffix : string) : bool :=
  let n := String.length s in
  let m := String.length suffix in
  (Nat.leb m n && String.eqb (String.substring (n - m) m s) suffix)%bool.

(** [strings.TrimPrefix(s, prefix)]: removes one leading [prefix]. *)
Definition TrimPrefix (s prefix : string) : string :=
  if HasPrefix s prefix
  then String.substring (String.length prefix)
         (String.length s - String.length prefix) s
  else s.

(** [strings.TrimSuffix(s, suffix)]: removes one trailing [suffix]. *)
Definition TrimSuffix (s suffix : string) : string :=
  if HasSuffix s suffix
  then String.substring 0 (String.length s - String.length suffix) s
  else s.

(** [strings.Split(s, ".")]: the pieces between the dots; [Split("", ".")]
    is [[""]], so the result is never empty. *)
Fixpoint Split_dot (s : string) : list string :=
  match s with
  | EmptyString => [EmptyString]
  | String c rest =>
      let parts := Split_dot rest in
      if ascii_dec c "."%char then EmptyString :: parts
      else match parts with
           | p :: ps => String c p :: ps
           | [] => [String c EmptyString]
           end
  end.

(** [strings.Join(elems, sep)] *)
Fixpoint Join (elems : list string) (sep : string) : string :=
  match elems with
  | [] => EmptyString
  | [x] => x
  | x :: xs => (x ++ sep ++ Join xs sep)%string
  end.

(** [utf8.RuneError] *)
Definition RuneError : Z := 65533.

Definition is_cont (b : Z) : bool := (128 <=? b) && (b <=? 191).

(** The rune of [utf8.DecodeRuneInString(s)] (its size is unused by the
    code): the accepted first bytes and the narrowed ranges of the second
    byte after [0xE0], [0xED], [0xF0] and [0xF4] are those of the Go
    decoder; every ill-formed or truncated sequence decodes to
    [RuneError]. *)
Definition DecodeRuneInString (s : string) : Z :=
  match s with
  | EmptyString => RuneError
  | String c0 r =>
      let b0 := byteZ c0 in
      if b0 <? 128 then b0
      else if (194 <=? b0) && (b0 <=? 223) then
        match r with
        | String c1 _ =>
            let b1 := byteZ c1 in
            if is_cont b1
            then Z.lor (Z.shiftl (Z.land b0 31) 6) (Z.land b1 63)
            else RuneError
        | _ => RuneError
        end
      else if (224 <=? b0) && (b0 <=? 239) then
        match r with
        | String c1 (String c2 _) =>
            let b1 := byteZ c1 in
            let b2 := byteZ c2 in
            let lo := if b0 =? 224 then 160 else 128 in
            let hi := if b0 =? 237 then 159 else 191 in
            if (lo <=? b1) && (b1 <=? hi) && is_cont b2
            then Z.lor (Z.lor (Z.shiftl (Z.land b0 15) 12)
                              (Z.shiftl (Z.land b1 63) 6))
                       (Z.land b2 63)
            else RuneError
        | _ => RuneError
        end
      else if (240 <=? b0) && (b0 <=? 244) then
        match r with
        | String c1 (String c2 (String c3 _)) =>
            let b1 := byteZ c1 in
            let b2 := byteZ c2 in
            let b3 := byteZ c3 in
            let lo := if b0 =? 240 then 144 else 128 in
            let hi := if b0 =? 244 then 143 else 191 in
            if (lo <=? b1) && (b1 <=? hi) && is_cont b2 && is_cont b3
            then Z.lor (Z.lor (Z.lor (Z.shiftl (Z.land b0 7) 18)
                                     (Z.shiftl (Z.land b1 63) 12))
                              (Z.shiftl (Z.land b2 63) 6))
                       (Z.land b3 63)
            else RuneError
        | _ => RuneError
        end
      else RuneError
  end.

(** Lower-case letters of Latin-1, as in the [properties] table that
    [unicode.IsLower] consults for runes up to [MaxLatin1]: [a-z], U+00B5,
    U+00DF..U+00F6 and U+00F8..U+00FF. *)
Definition latin1_lower (r : Z) : bool :=
  ((97 <=? r) && (r <=? 122)) || (r =? 181)
  || ((223 <=? r) && (r <=? 246)) || ((248 <=? r) && (r <=? 255)).

Section Goonit.

(** Above Latin-1, [unicode.IsLower] looks the rune up in the Unicode
    table [unicode.Lower]; that table is a parameter of the development. *)
Variable lower_table : Z -> bool.

(** [unicode.IsLower] *)
Definition IsLower (r : Z) : bool :=
  if (0 <=? r) && (r <=? 255) then latin1_lower r else lower_table r.

(* ------------------------------------------------------------------ *)
(** ** [FuncInfo] and symbol parsing *)

(** [FuncInfo]: [fi_Name] is [Func.Name()] of the embedded [*runtime.Func];
    the other fields are the Go struct's fields [Function], [Object],
    [Package], [File] and [Line]. *)
Record FuncInfo := mkFuncInfo {
  fi_Name : string;
  fi_Function : string;
  fi_Object : string;
  fi_Package : string;
  fi_File : string;
  fi_Line : Z
}.

(** [(f *FuncInfo) isObjectRef(s)] *)
Definition isObjectRef (s : string) : bool :=
  HasPrefix s "(" && HasSuffix s ")".

(** [(f *FuncInfo) findObjectRef(refs)]: [Some i] for [(i, true)], [None]
    for [(-1, false)]. *)
Fixpoint findObjectRef_from (i : nat) (refs : list string) : option nat :=
  match refs with
  | [] => None
  | s :: rest => if isObjectRef s then Some i else findObjectRef_from (S i) rest
  end.

Definition findObjectRef (refs : list string) : option nat :=
  findObjectRef_from 0 refs.

(** [(f *FuncInfo) trimObjectRef(s)] *)
Definition trimObjectRef (s : string) : string :=
  TrimPrefix (TrimPrefix (TrimSuffix s ")") "(") "*".

(** [(f *FuncInfo) parseName()] *)
Definition parseName (f : FuncInfo) : FuncInfo :=
  let nameElems := Split_dot (fi_Name f) in
  if (length nameElems <? 2)%nat then
    {| fi_Name := fi_Name f; fi_Function := fi_Name f; fi_Object := fi_Object f;
       fi_Package := fi_Package f; fi_File := fi_File f; fi_Line := fi_Line f |}
  else match findObjectRef nameElems with
  | Some objIndex =>
      {| fi_Name := fi_Name f;
         fi_Function := Join (skipn (S objIndex) nameElems) ".";
         fi_Object := trimObjectRef (nth objIndex nameElems EmptyString);
         fi_Package := Join (firstn objIndex nameElems) ".";
         fi_File := fi_File f; fi_Line := fi_Line f |}
  | None =>
      {| fi_Name := fi_Name f;
         fi_Function := nth (length nameElems - 1) nameElems EmptyString;
         fi_Object := fi_Object f;
         fi_Package := Join (firstn (length nameElems - 1) nameElems) ".";
         fi_File := fi_File f; fi_Line := fi_Line f |}
  end.

(** [NewFuncInfo(f, file, line)]: the string fields start as Go's zero
    value [""]. *)
Definition NewFuncInfo (name file : string) (line : Z) : FuncInfo :=
  parseName {| fi_Name := name; fi_Function := ""; fi_Object := "";
               fi_Package := ""; fi_File := file; fi_Line := line |}.

(** [startsWith(name, prefix)] *)
Definition startsWith (name prefix : string) : bool :=
  if negb (HasPrefix name prefix) then false
  else if Nat.eqb (String.length name) (String.length prefix) then true
  else
    let nextChar := DecodeRuneInString
        (String.substring (String.length prefix)
           (String.length name - String.length prefix) name) in
    negb (IsLower nextChar).

(** [(f *FuncInfo) IsMock()] *)
Definition IsMock (f : FuncInfo) : bool := startsWith (fi_Object f) "Mock".

(** [(f *FuncInfo) IsTest()] *)
Definition IsTest (f : FuncInfo) : bool :=
  startsWith (fi_Function f) "Test" || startsWith (fi_Function f) "Benchmark"
  || startsWith (fi_Function f) "Example".


(* ------------------------------------------------------------------ *)
(** ** The call stack and [CallerFuncInfo] *)

(** One frame of the goroutine's stack as [runtime.Caller] reports it:
    [rf_func] is the [Name()] of [runtime.FuncForPC(pc)] ([None] when that
    is [nil]), with the frame's source file and line. *)
Record RawFrame := mkRawFrame {
  rf_func : option string;
  rf_file : string;
  rf_line : Z
}.

(** A [*FuncInfo] pointer.  Every call of [CallerFuncInfo] allocates a
    fresh [FuncInfo]; within one walk each depth is resolved once, so the
    depth it was resolved at identifies the allocation and Go's pointer
    comparison [==] is the comparison of these tags. *)
Definition Ref : Type := (nat * FuncInfo)%type.

Definition ref_info (r : Ref) : FuncInfo := snd r.

(** [p == q] on two [*FuncInfo] values, [nil] being [None]. *)
Definition ptr_eq (p q : option Ref) : bool :=
  match p, q with
  | None, None => true
  | Some (a, _), Some (b, _) => Nat.eqb a b
  | _, _ => false
  end.

(** [CallerFuncInfo(callerIndex)] on the stack [stk] that [runtime.Caller]
    sees from inside [CallerFuncInfo] (depth 0 is [CallerFuncInfo] itself):
    [None] past the end of the stack, on the ["<autogenerated>"] sentinel
    file, and when [runtime.FuncForPC] gives [nil]. *)
Definition CallerFuncInfo (stk : list RawFrame) (callerIndex : nat)
  : option Ref :=
  match nth_error stk callerIndex with
  | None => None
  | Some fr =>
      if String.eqb (rf_file fr) "<autogenerated>" then None
      else match rf_func fr with
           | None => None
           | Some name =>
               Some (callerIndex, NewFuncInfo name (rf_file fr) (rf_line fr))
           end
  end.

(* ------------------------------------------------------------------ *)
(** ** [FuncInfoStack] and [BuildCallerStack] *)

(** [FuncInfoStack]: the fields [Caller], [Stack], [Test], [Tested],
    [Mocked], [Mocker], [last] and [this]; [nil] is [None]. *)
Record FuncInfoStack := mkFuncInfoStack {
  fs_Caller : option Ref;
  fs_Stack : list Ref;
  fs_Test : option Ref;
  fs_Tested : option Ref;
  fs_Mocked : option Ref;
  fs_Mocker : option Ref;
  fs_last : option Ref;
  fs_this : option Ref
}.

(** [&FuncInfoStack{Stack: []*FuncInfo{}}] *)
Definition empty_stack : FuncInfoStack :=
  {| fs_Caller := None; fs_Stack := []; fs_Test := None; fs_Tested := None;
     fs_Mocked := None; fs_Mocker := None; fs_last := None; fs_this := None |}.

(** The body of the [for] loop of [BuildCallerStack] for a resolved frame
    [f]; [this] is [s.this], set before the loop.  The checks run in the
    order of the source: [Caller], then [Mocker] (against the [Mocked] of
    the previous iterations), then [Mocked], then [Test]/[Tested], and
    finally [last]. *)
Definition walk_step (this : Ref) (s : FuncInfoStack) (f : Ref)
  : FuncInfoStack :=
  let caller :=
    match fs_Caller s with
    | None => if negb (String.eqb (fi_Package (ref_info f))
                                  (fi_Package (ref_info this)))
              then Some f else None
    | Some c => Some c
    end in
  let mocker := if ptr_eq (fs_last s) (fs_Mocked s) then Some f
                else fs_Mocker s in
  let mocked := if IsMock (ref_info f) then Some f else fs_Mocked s in
  let test := if IsTest (ref_info f) then Some f else fs_Test s in
  let tested := if IsTest (ref_info f) then fs_last s else fs_Tested s in
  {| fs_Caller := caller; fs_Stack := fs_Stack s ++ [f]; fs_Test := test;
     fs_Tested := tested; fs_Mocked := mocked; fs_Mocker := mocker;
     fs_last := Some f; fs_this := fs_this s |}.

(** [for i := 3; ; i++ { f, ok := CallerFuncInfo(i); if !ok { return s }; ... }].
    The loop ends at the first depth that does not resolve; [fuel] bounds
    the iterations, and [length stk] iterations reach a depth past the end
    of the stack. *)
Fixpoint walk_loop (stk : list RawFrame) (this : Ref) (fuel i : nat)
  (s : FuncInfoStack) : FuncInfoStack :=
  match fuel with
  | O => s
  | S fuel' =>
      match CallerFuncInfo stk i with
      | None => s
      | Some f => walk_loop stk this fuel' (S i) (walk_step this s f)
      end
  end.

(** [(x *BaseTest) BuildCallerStack()] *)
Definition BuildCallerStack (stk : list RawFrame) : FuncInfoStack :=
  match CallerFuncInfo stk 1 with
  | None => empty_stack
  | Some this =>
      walk_loop stk this (length stk) 3
        {| fs_Caller := None; fs_Stack := []; fs_Test := None;
           fs_Tested := None; fs_Mocked := None; fs_Mocker := None;
           fs_last := None; fs_this := Some this |}
  end.

(** [(s *FuncInfoStack) MockedCall()]: dereferencing a [nil] [Mocker] or
    [Mocked] is a run-time panic, the [None] result. *)
Definition MockedCall (s : FuncInfoStack) : option string :=
  match fs_Mocker s, fs_Mocked s with
  | Some mr, Some md =>
      Some (Join [fi_Object (ref_info mr); fi_Function (ref_info mr);
                  fi_Object (ref_info md); fi_Function (ref_info md)] ".")
  | _, _ => None
  end.

End Goonit.

(* ------------------------------------------------------------------ *)
(** ** The frames of this package on top of the stack *)

Definition core_pkg : string := "github.com/sbernheim/goonit/core".

Definition core_file : string := "/src/goonit/core/type.go".

(** The frame of [CallerFuncInfo] at the [runtime.Caller] call. *)
Definition frame_CallerFuncInfo : RawFrame :=
  {| rf_func := Some (core_pkg ++ ".CallerFuncInfo")%string;
     rf_file := core_file; rf_line := 397 |}.

(** The frame of the pointer-receiver method [name] of [BaseTest], stopped at [line]. *)
Definition frame_method (name : string) (line : Z) : RawFrame :=
  {| rf_func := Some (core_pkg ++ ".(*BaseTest)." ++ name)%string;
     rf_file := core_file; rf_line := line |}.

(* ------------------------------------------------------------------ *)
(** ** Captured values and their run-time types *)

(** The dynamic types a captured [interface{}] value carries in this
    development: Go's predeclared [int], [string] and [bool]. *)
Inductive GoType := TInt | TString | TBool.

Definition GoType_eqb (a b : GoType) : bool :=
  match a, b with
  | TInt, TInt | TString, TString | TBool, TBool => true
  | _, _ => false
  end.

(** An [interface{}] value; [VNil] is the [nil] interface. *)
Inductive Value :=
| VNil
| VInt (z : Z)
| VString (s : string)
| VBool (b : bool).

(** [reflect.TypeOf(v)]; [nil] for the [nil] interface. *)
Definition TypeOf (v : Value) : option GoType :=
  match v with
  | VNil => None
  | VInt _ => Some TInt
  | VString _ => Some TString
  | VBool _ => Some TBool
  end.

(** [reflect.Type.AssignableTo] between the dynamic types above: named
    predeclared types are assignable only to themselves. *)
Definition AssignableTo (t u : GoType) : bool := GoType_eqb t u.

(** Gomega's [AssignableToTypeOfMatcher{Expected: expected}.Match(actual)]:
    [(success, err)], an error when [Expected] is [nil]. *)
Definition AssignableToTypeOf_Match (expected actual : Value)
  : bool * option string :=
  match actual, TypeOf expected with
  | VNil, None => (false, Some "Refusing to compare <nil> to <nil>.")
  | _, None => (false, Some "Refusing to compare type to <nil>.")
  | VNil, Some _ => (false, None)
  | _, Some u =>
      match TypeOf actual with
      | Some t => (AssignableTo t u, None)
      | None => (false, None)
      end
  end.

(** [fmt]'s [%T] of a value. *)
Definition fmt_T (v : Value) : string :=
  match TypeOf v with
  | None => "<nil>"
  | Some TInt => "int"
  | Some TString => "string"
  | Some TBool => "bool"
  end.

(** [fmt]'s [%v] of a value. *)
Definition fmt_v (v : Value) : string :=
  match v with
  | VNil => "<nil>"
  | VInt z => pretty z
  | VString s => s
  | VBool b => if b then "true" else "false"
  end.

(** [fmt]'s [%v] of a [[]string]. *)
Definition fmt_strings (l : list string) : string :=
  ("[" ++ Join l " " ++ "]")%string.

(** Go's [int] addition wraps at 64 bits. *)
Definition wrap64 (z : Z) : Z := (z + 2 ^ 63) mod 2 ^ 64 - 2 ^ 63.

(* ------------------------------------------------------------------ *)
(** ** [BaseTest]: the capture store *)

(** The fields of [BaseTest] the capture operations use: [captured],
    [capsFrom], and the lines logged through [x.Logf]. *)
Record BaseTest := mkBaseTest {
  bt_captured : list Value;
  bt_capsFrom : gmap string (list Value);
  bt_logs : list string
}.

(** The capture fields as [New(t)] initialises them. *)
Definition New : BaseTest :=
  {| bt_captured := []; bt_capsFrom := ∅; bt_logs := [] |}.

(** The result of a method of [BaseTest]: it returns [a] with the test in
    state [x]; or [x.Fatalf] / a failed gomega assertion ends the test with
    the message the code builds; or the goroutine panics (a [nil] pointer
    dereference or an index out of range). *)
Inductive Outcome (A : Type) :=
| Ok (a : A) (x : BaseTest)
| Fatal (msg : string) (x : BaseTest)
| Panic (msg : string).
Arguments Ok {A} a x.
Arguments Fatal {A} msg x.
Arguments Panic {A} msg.

Definition nil_deref : string := "runtime error: invalid memory address or nil pointer dereference".

Definition index_out_of_range : string := "runtime error: index out of range".

(** [(f *FuncInfo) FileLine()] *)
Definition FileLine (f : FuncInfo) : string :=
  (fi_File f ++ ":" ++ pretty (fi_Line f))%string.

(** [(f *FuncInfo) LogString()] *)
Definition LogString (f : FuncInfo) : string :=
  if String.eqb (fi_Object f) ""
  then (fi_Package f ++ "." ++ fi_Function f ++ " at " ++ FileLine f)%string
  else (fi_Object f ++ "." ++ fi_Function f ++ " at " ++ FileLine f)%string.

(** [x.Logf(...)] *)
Definition Logf (x : BaseTest) (line : string) : BaseTest :=
  {| bt_captured := bt_captured x; bt_capsFrom := bt_capsFrom x;
     bt_logs := bt_logs x ++ [line] |}.

Section Store.

Variable lower_table : Z -> bool.

(** The stack [runtime.Caller] sees from [CallerFuncInfo] when a method
    whose own frames are [above] (innermost first) is called from a
    goroutine whose stack is [outer]: [CallerFuncInfo] (depth 0),
    [BuildCallerStack] (depth 1), then [above], then [outer]. *)
Definition stack_from (above outer : list RawFrame) : list RawFrame :=
  frame_CallerFuncInfo :: frame_method "BuildCallerStack" 467 :: above ++ outer.

(** [x.GetCallerInfo().LogString()] called from the method frames [above]:
    [None] when [Caller] is [nil], whose [LogString] panics. *)
Definition caller_log (above outer : list RawFrame) : option string :=
  match fs_Caller (BuildCallerStack lower_table
                     (stack_from (frame_method "GetCallerInfo" 501 :: above) outer)) with
  | Some c => Some (LogString (ref_info c))
  | None => None
  end.

(** [(x *BaseTest) Capture(captured...)], called from a goroutine whose
    stack is [outer]. *)
Definition Capture (outer : list RawFrame) (captured : list Value)
  (x : BaseTest) : Outcome unit :=
  let stack := BuildCallerStack lower_table
                 (stack_from [frame_method "Capture" 260] outer) in
  match fs_Mocked stack with
  | None =>
      match fs_Caller stack with
      | None => Panic nil_deref
      | Some c =>
          let x1 := Logf x ("NO MOCK FOUND FOR CAPTURE from "
                              ++ LogString (ref_info c))%string in
          Ok tt {| bt_captured := bt_captured x1 ++ captured;
                   bt_capsFrom := bt_capsFrom x1; bt_logs := bt_logs x1 |}
      end
  | Some _ =>
      match MockedCall stack with
      | None => Panic nil_deref
      | Some key =>
          let caps := match bt_capsFrom x !! key with
                      | Some caps => caps
                      | None => []
                      end in
          Ok tt {| bt_captured := bt_captured x ++ captured;
                   bt_capsFrom := <[key := caps ++ captured]> (bt_capsFrom x);
                   bt_logs := bt_logs x |}
      end
  end.

(** [(x *BaseTest) GetMockedCallName()] *)
Definition GetMockedCallName (outer : list RawFrame) (x : BaseTest)
  : Outcome string :=
  match MockedCall (BuildCallerStack lower_table
                      (stack_from [frame_method "GetMockedCallName" 496] outer)) with
  | None => Panic nil_deref
  | Some key => Ok key x
  end.

(** [(x *BaseTest) Captured(index, expectTypeOf)]: the three gomega
    assertions in order; a failed one ends the test with the description
    the code passes (gomega appends its matcher's own text). *)
Definition Captured (index : Z) (expectTypeOf : Value) (x : BaseTest)
  : Outcome Value :=
  let caps := bt_captured x in
  if Nat.eqb (length caps) 0 then
    Fatal "There were no captured parameter values!" x
  else if negb (Z.of_nat (length caps) >=? wrap64 (index + 1)) then
    Fatal ("There were only " ++ pretty (Z.of_nat (length caps))
           ++ " captured parameter values - cannot retrieve index "
           ++ pretty index)%string x
  else if (index <? 0) || (Z.of_nat (length caps) <=? index) then
    Panic index_out_of_range
  else
    let v := nth (Z.to_nat index) caps VNil in
    match AssignableToTypeOf_Match expectTypeOf v with
    | (true, None) => Ok v x
    | _ => Fatal ("Captured parameter type " ++ fmt_T v ++ " at index "
                  ++ pretty index ++ " is not assignable to type "
                  ++ fmt_T expectTypeOf)%string x
    end.

(** [(x *BaseTest) capturedOfType(expectTypeOf, caps)] *)
Definition capturedOfType (expectTypeOf : Value) (caps : list Value)
  : list Value :=
  List.filter (fun cap => match AssignableToTypeOf_Match expectTypeOf cap with
                     | (true, None) => true
                     | _ => false
                     end) caps.

(** [range x.capsFrom]: Go leaves the iteration order of a map
    unspecified; the development iterates in [map_to_list] order and
    states its results up to permutation. *)
Definition capsFrom_entries (x : BaseTest) : list (string * list Value) :=
  map_to_list (bt_capsFrom x).

(** [(x *BaseTest) CapturedOfType(expectTypeOf)] *)
Definition CapturedOfType (outer : list RawFrame) (expectTypeOf : Value)
  (x : BaseTest) : Outcome (list Value) :=
  let caps := List.concat (map (fun kv => capturedOfType expectTypeOf kv.2)
                              (capsFrom_entries x)) in
  if Nat.eqb (length caps) 0 then
    match caller_log [frame_method "CapturedOfType" 302] outer with
    | None => Panic nil_deref
    | Some c => Fatal ("There were no captured parameters of type "
                       ++ fmt_T expectTypeOf ++ " for " ++ c)%string x
    end
  else Ok caps x.

(** [(x *BaseTest) capturedKeys()], in the iteration order above. *)
Definition capturedKeys (x : BaseTest) : list string :=
  map fst (capsFrom_entries x).

(** [(x *BaseTest) CapturedFrom(mockCall)] *)
Definition CapturedFrom (outer : list RawFrame) (mockCall : string)
  (x : BaseTest) : Outcome (list Value) :=
  if Nat.eqb (length (capsFrom_entries x)) 0 then
    Fatal "There were no captured parameter values!" x
  else match bt_capsFrom x !! mockCall with
  | Some caps => Ok caps x
  | None =>
      match caller_log [frame_method "CapturedFrom" 323] outer with
      | None => Panic nil_deref
      | Some caller =>
          Fatal ("at " ++ caller ++ " there were no captures from mock call '"
                 ++ mockCall ++ "'!  keys " ++ fmt_strings (capturedKeys x))%string x
      end
  end.

(** [(x *BaseTest) CapturedOfTypeFromCall(expectTypeOf, mockCall)]; the
    list [capTypes] of the diagnostic is built by ranging over [caps]. *)
Definition CapturedOfTypeFromCall (outer : list RawFrame)
  (expectTypeOf : Value) (mockCall : string) (x : BaseTest)
  : Outcome (list Value) :=
  match CapturedFrom (frame_method "CapturedOfTypeFromCall" 330 :: outer)
          mockCall x with
  | Panic m => Panic m
  | Fatal m x' => Fatal m x'
  | Ok capsFrom x' =>
      let caps := capturedOfType expectTypeOf capsFrom in
      if Nat.eqb (length caps) 0 then
        match caller_log [frame_method "CapturedOfTypeFromCall" 333] outer with
        | None => Panic nil_deref
        | Some caller =>
            let capTypes := map (fun cap => ("(" ++ fmt_T cap ++ ")" ++ fmt_v cap)%string)
                                caps in
            Fatal ("at " ++ caller ++ " there were no captures of type "
                   ++ fmt_T expectTypeOf ++ " from mock call '" ++ mockCall
                   ++ "'!  keys " ++ fmt_strings (capturedKeys x')
                   ++ "  values " ++ fmt_strings capTypes)%string x'
        end
      else Ok caps x'
  end.

End Store.

(* ------------------------------------------------------------------ *)
(** ** Auxiliary definitions for the proofs *)

(** The frames [walk_loop] resolves, outward from depth [i]. *)
Fixpoint walked (stk : list RawFrame) (fuel i : nat) : list Ref :=
  match fuel with
  | O => []
  | S fuel' =>
      match CallerFuncInfo stk i with
      | None => []
      | Some f => f :: walked stk fuel' (S i)
      end
  end.

(** The state of [BuildCallerStack] after [n] iterations of its loop. *)
Definition walk_prefix (lower_table : Z -> bool) (stk : list RawFrame)
  (n : nat) : FuncInfoStack :=
  match CallerFuncInfo stk 1 with
  | None => empty_stack
  | Some this =>
      walk_loop lower_table stk this n 3
        {| fs_Caller := None; fs_Stack := []; fs_Test := None;
           fs_Tested := None; fs_Mocked := None; fs_Mocker := None;
           fs_last := None; fs_this := Some this |}
  end.

(** The spec's reading of symbol parsing: a segment "wrapped in
    parentheses", and the receiver-type name with "at most one leading
    [*]" removed. *)
Definition wrapped (seg : string) : Prop :=
  exists inner, seg = ("(" ++ inner ++ ")")%string.

Definition strip_star (inner : string) : string :=
  match inner with
  | String c r => if ascii_dec c "*"%char then r else inner
  | EmptyString => inner
  end.

(** [i] is the first (left-most) index of a wrapped segment. *)
Definition first_wrapped (elems : list string) (i : nat) (seg : string) : Prop :=
  nth_error elems i = Some seg /\ wrapped seg /\
  (forall j s', (j < i)%nat -> nth_error elems j = Some s' -> ~ wrapped s').

(** The spec's word-boundary prefix match: [name] is [prefix] followed by
    nothing or by a character that is not lower case. *)
Definition word_boundary_prefix (lower_table : Z -> bool) (prefix name : string)
  : Prop :=
  exists rest, name = (prefix ++ rest)%string /\
    (rest = EmptyString \/ IsLower lower_table (DecodeRuneInString rest) = false).

(** Frames of test code, as [NewFuncInfo] builds them from the symbols the
    Go runtime reports. *)
Definition app_frame (symbol : string) : FuncInfo :=
  NewFuncInfo symbol "/src/app/app_test.go" 10.


(** The state [BuildCallerStack] enters its loop with. *)
Definition walk_init (this : Ref) : FuncInfoStack :=
  {| fs_Caller := None; fs_Stack := []; fs_Test := None; fs_Tested := None;
     fs_Mocked := None; fs_Mocker := None; fs_last := None;
     fs_this := Some this |}.


(** A frame of code outside this package at [line]. *)
Definition raw_frame (symbol : string) (line : Z) : RawFrame :=
  {| rf_func := Some symbol; rf_file := "/src/app/app_test.go"; rf_line := line |}.

(** The bottom of every test goroutine's stack. *)
Definition runner_frames : list RawFrame :=
  [{| rf_func := Some "testing.tRunner"; rf_file := "/go/src/testing/testing.go";
      rf_line := 1595 |};
   {| rf_func := Some "runtime.goexit"; rf_file := "/go/src/runtime/asm_amd64.s";
      rf_line := 1650 |}].

(** A test function that calls the method directly, with no mock between. *)
Definition outer_direct : list RawFrame :=
  raw_frame "example.com/app.TestFoo" 12 :: runner_frames.

(** A test helper that is itself named like a test, called from the test. *)
Definition outer_nested_tests : list RawFrame :=
  raw_frame "example.com/app.TestInner" 20 ::
  raw_frame "example.com/app.TestOuter" 30 :: runner_frames.


(** A frame [CallerFuncInfo] resolves: not the ["<autogenerated>"]
    sentinel, and with a [runtime.Func]. *)
Definition frame_resolves (fr : RawFrame) : bool :=
  negb (String.eqb (rf_file fr) "<autogenerated>") &&
  match rf_func fr with Some _ => true | None => false end.

(** The package [NewFuncInfo] gives the function of a frame. *)
Definition frame_package (fr : RawFrame) : string :=
  match rf_func fr with
  | Some name => fi_Package (NewFuncInfo name (rf_file fr) (rf_line fr))
  | None => ""
  end.

(** The frames above a method of this package, as [runtime.Caller]
    reports them for a running goroutine: they resolve one by one down to
    a frame of another package, at the latest [runtime.goexit] at the
    bottom of every goroutine ([runtime.Caller] elides the wrapper frames
    the compiler generates). *)
Definition reaches_outside (outer : list RawFrame) : Prop :=
  exists pre fr post,
    outer = pre ++ fr :: post /\ forallb frame_resolves pre = true /\
    frame_resolves fr = true /\ frame_package fr <> core_pkg.

(** A capture made inside a gomock [Do] action of [MockLogger.Info],
    called by [Service.Run], called by [TestFoo]. *)
Definition outer_mocked : list RawFrame :=
  raw_frame "example.com/app.TestFoo.func1" 15 ::
  raw_frame "github.com/golang/mock/gomock.(*Controller).Call" 231 ::
  raw_frame "example.com/app/mock.(*MockLogger).Info" 77 ::
  raw_frame "example.com/app.(*Service).Run" 40 ::
  raw_frame "example.com/app.TestFoo" 18 :: runner_frames.

(** The spec's "runtime type assignable to the expected type". *)
Definition assignable_to_type_of (expectTypeOf v : Value) : Prop :=
  exists t u, TypeOf v = Some t /\ TypeOf expectTypeOf = Some u /\
              AssignableTo t u = true.


(* ------------------------------------------------------------------ *)
(** ** More of [BaseTest]'s capture API *)

(** [(x *BaseTest) AllCaptured()] *)
Definition AllCaptured (x : BaseTest) : list Value := bt_captured x.

(** [(x *BaseTest) FirstCapturedOfType(expectTypeOf)]: [CapturedOfType]
    called from this method's frame, then its element [[0]]. *)
Definition FirstCapturedOfType (lower_table : Z -> bool) (outer : list RawFrame)
  (expectTypeOf : Value) (x : BaseTest) : Outcome Value :=
  match CapturedOfType lower_table (frame_method "FirstCapturedOfType" 308 :: outer)
          expectTypeOf x with
  | Ok caps x' =>
      match caps with
      | v :: _ => Ok v x'
      | [] => Panic index_out_of_range
      end
  | Fatal m x' => Fatal m x'
  | Panic m => Panic m
  end.

(** The store keeps every value held under a key in the global list too:
    each key's list is an ordered sublist of [captured], and the lists of
    all keys together are a sub-multiset of it. *)
Definition buckets_in_global (x : BaseTest) : Prop :=
  (forall k b, bt_capsFrom x !! k = Some b -> sublist b (bt_captured x)) /\
  List.concat (map snd (map_to_list (bt_capsFrom x))) ⊆+ bt_captured x.

(* ------------------------------------------------------------------ *)
(** ** [BaseTest]'s environment and argument helpers *)

(** The process state these helpers read and write: the environment and
    [os.Args] ([None] is a [nil] slice). *)
Record OsState := mkOsState {
  os_env : gmap string string;
  os_Args : option (list string)
}.

(** The check of [syscall.Setenv] (Unix) before it changes anything: a
    non-empty key with no ['='] and no NUL byte, a value with no NUL byte;
    otherwise it returns [EINVAL], which [SetEnv] ignores. *)
Definition setenv_ok (key value : string) : bool :=
  negb (String.eqb key "") &&
  forallb (fun c => negb (Ascii.eqb c "="%char || Ascii.eqb c "000"%char))
          (list_ascii_of_string key) &&
  forallb (fun c => negb (Ascii.eqb c "000"%char)) (list_ascii_of_string value).

(** [os.Setenv(key, value)], its error ignored. *)
Definition os_Setenv (key value : string) (s : OsState) : OsState :=
  if setenv_ok key value
  then {| os_env := <[key := value]> (os_env s); os_Args := os_Args s |}
  else s.

(** [os.Unsetenv(key)] *)
Definition os_Unsetenv (key : string) (s : OsState) : OsState :=
  {| os_env := delete key (os_env s); os_Args := os_Args s |}.

(** [os.LookupEnv(key)]: the empty key is never found. *)
Definition os_LookupEnv (key : string) (s : OsState) : option string :=
  if String.eqb key "" then None else os_env s !! key.

(** The fields of [BaseTest] these helpers use: [afterFunc], a closure
    over the process state, and [args]. *)
Record Harness := mkHarness {
  h_afterFunc : OsState -> OsState;
  h_args : option (list string)
}.

(** [mockProvider.Finish()]: gomock's [Controller.Finish] checks the
    expected calls and fails the test when some are missing (none are on
    a fresh test); it does not touch the environment or [os.Args]. *)
Definition mock_Finish (s : OsState) : OsState := s.

(** These fields as [New(t)] initialises them. *)
Definition NewHarness : Harness :=
  {| h_afterFunc := fun s => mock_Finish s; h_args := None |}.

(** [(x *BaseTest) DoAfter(doAfterFunc)]: the new [afterFunc] runs the
    previous one, then [doAfterFunc]. *)
Definition DoAfter (x : Harness) (doAfterFunc : OsState -> OsState) : Harness :=
  {| h_afterFunc := fun s => doAfterFunc (h_afterFunc x s); h_args := h_args x |}.

(** [(x *BaseTest) restoreExistingEnvAfter(name)], reading the variable in
    the process state [s] of the call. *)
Definition restoreExistingEnvAfter (x : Harness) (name : string) (s : OsState)
  : Harness :=
  match os_LookupEnv name s with
  | Some currentVal => DoAfter x (fun s' => os_Setenv name currentVal s')
  | None => DoAfter x (fun s' => os_Unsetenv name s')
  end.

(** [(x *BaseTest) SetEnv(name, val)] *)
Definition SetEnv (x : Harness) (name val : string) (s : OsState)
  : Harness * OsState :=
  (restoreExistingEnvAfter x name s, os_Setenv name val s).

(** [(x *BaseTest) splitPairs(namesAndValues)]: the slices [[i:i+2]] for
    [i = 0, 2, ...]; on an odd count the last slice runs past the end of a
    slice whose capacity is its length (as for a variadic call) and
    panics, which [SetEnvs] never reaches. *)
Fixpoint splitPairs (namesAndValues : list string) : option (list (list string)) :=
  match namesAndValues with
  | [] => Some []
  | [_] => None
  | a :: b :: rest => option_map (cons [a; b]) (splitPairs rest)
  end.

(** The result of a helper: it returns with the test fields [x] and the
    process state [s]; or [x.Fatalf] ends the test (its deferred [Done]
    still sees [x] and [s]); or the goroutine panics. *)
Inductive HOutcome :=
| HOk (x : Harness) (s : OsState)
| HFatal (format : string) (x : Harness) (s : OsState)
| HPanic (msg : string).

Definition slice_out_of_range : string := "runtime error: slice bounds out of range".

(** [for _, pair := range pairs { x.SetEnv(pair[0], pair[1]) }]; [pair']
    is [pair]. *)
Fixpoint setPairs (pairs : list (list string)) (x : Harness) (s : OsState)
  : HOutcome :=
  match pairs with
  | [] => HOk x s
  | pair' :: rest =>
      match pair' !! 0%nat, pair' !! 1%nat with
      | Some name, Some val =>
          let (x', s') := SetEnv x name val s in setPairs rest x' s'
      | _, _ => HPanic index_out_of_range
      end
  end.

(** [(x *BaseTest) SetEnvs(namesAndValues...)]; [None] is a [nil] slice
    (a call with no arguments).  The message is built with [fmt.Sprintf]
    and passed to [Fatalf] as its format. *)
Definition SetEnvs (namesAndValues : option (list string)) (x : Harness)
  (s : OsState) : HOutcome :=
  let l := match namesAndValues with Some l => l | None => [] end in
  if match namesAndValues with
     | Some _ => Nat.ltb (length l) 2
     | None => false
     end
  then HFatal ("must set at least one name and value pair! passed values "
               ++ fmt_strings l)%string x s
  else if Nat.eqb (Nat.modulo (length l) 2) 1
  then HFatal ("must pass names and values in even pairs! passed "
               ++ pretty (Z.of_nat (length l)) ++ " values " ++ fmt_strings l)%string x s
  else match splitPairs l with
       | None => HPanic slice_out_of_range
       | Some pairs => setPairs pairs x s
       end.

(** [(x *BaseTest) commandArg()] *)
Definition commandArg (s : OsState) : string :=
  match os_Args s with
  | None => "fakeCommand"
  | Some args =>
      match args with
      | [] => "fakeCommand"
      | a :: _ => a
      end
  end.

(** [(x *BaseTest) restoreExistingArgsAfter()] *)
Definition restoreExistingArgsAfter (x : Harness) (s : OsState) : Harness :=
  match os_Args s with
  | Some currentArgs =>
      DoAfter x (fun s' => {| os_env := os_env s'; os_Args := Some currentArgs |})
  | None => x
  end.

(** [(x *BaseTest) SetArgs(args...)]: [x.args] becomes a fresh non-[nil]
    copy of [args], and [os.Args] that slice. *)
Definition SetArgs (args : list string) (x : Harness) (s : OsState)
  : Harness * OsState :=
  let x1 := restoreExistingArgsAfter x s in
  let x2 := {| h_afterFunc := h_afterFunc x1; h_args := Some ([] ++ args) |} in
  (x2, {| os_env := os_env s; os_Args := h_args x2 |}).

(** [(x *BaseTest) Done()] *)
Definition Done (x : Harness) (s : OsState) : OsState := h_afterFunc x s.

(* ------------------------------------------------------------------ *)
(** ** Package [match]: gomock matchers *)

(** [gomock.Matcher]; [Matches] gives [None] when the call panics. *)
Class Matcher (M : Type) := {
  Matches : M -> Value -> option bool;
  MatcherString : M -> string
}.

(** [reflect.Type] equality on the dynamic types ([nil] for [nil]). *)
Definition type_eqb (a b : option GoType) : bool :=
  match a, b with
  | None, None => true
  | Some a, Some b => GoType_eqb a b
  | _, _ => false
  end.

(** [fmt]'s [%s] of a [reflect.Type]. *)
Definition fmt_s_Type (t : option GoType) : string :=
  match t with
  | None => "%!s(<nil>)"
  | Some TInt => "int"
  | Some TString => "string"
  | Some TBool => "bool"
  end.

(** [type isType struct{ t reflect.Type }] *)
Record isType := mk_isType { isType_t : option GoType }.

(** [IsType(t)] *)
Definition IsType (t : Value) : isType := {| isType_t := TypeOf t |}.

#[export] Instance isType_Matcher : Matcher isType := {
  Matches m param := Some (type_eqb (TypeOf param) (isType_t m));
  MatcherString m := ("is of type " ++ fmt_s_Type (isType_t m))%string
}.

(** [AnyString()] *)
Definition AnyString : isType := IsType (VString "").

(** [reflect.Kind] *)
Inductive Kind := KBool | KInt | KString | KFunc.

Definition Kind_eqb (a b : Kind) : bool :=
  match a, b with
  | KBool, KBool | KInt, KInt | KString, KString | KFunc, KFunc => true
  | _, _ => false
  end.

(** [reflect.Type.Kind()] of the dynamic types. *)
Definition TypeKind (t : GoType) : Kind :=
  match t with TInt => KInt | TString => KString | TBool => KBool end.

(** [type isFunc struct{}] *)
Inductive isFunc := mk_isFunc.

(** [reflect.TypeOf(param).Kind() == reflect.Func]: [TypeOf(nil)] is a
    [nil] [reflect.Type], whose [Kind] call panics. *)
#[export] Instance isFunc_Matcher : Matcher isFunc := {
  Matches _ param :=
    match TypeOf param with
    | None => None
    | Some t => Some (Kind_eqb (TypeKind t) KFunc)
    end;
  MatcherString _ := "is a function reference"
}.

(** [AnyFunc()] *)
Definition AnyFunc : isFunc := mk_isFunc.


(** The names of [SetEnvs]'s arguments: the first of each pair. *)
Fixpoint pair_names (namesAndValues : list string) : list string :=
  match namesAndValues with
  | n :: _ :: rest => n :: pair_names rest
  | _ => []
  end.

(** Every variable of the process environment could have been set by
    [os.Setenv]. *)
Definition env_settable (s : OsState) : Prop :=
  forall k v, os_env s !! k = Some v -> setenv_ok k v = true.


(* ================================================================== *)
(** * Proofs *)

(** ** Strings *)

(** stdpp blocks [simpl] on string concatenation; the proofs below reduce
    it on a concrete head. *)
Local Arguments String.append : simpl nomatch.

Lemma substring_full (s : string) : String.substring 0 (String.length s) s = s.
Proof. induction s as [|c s IH]; simpl; [reflexivity | now rewrite IH]. Qed.

Lemma substring_app_l (s t : string) :
  String.substring 0 (String.length s) (s ++ t) = s.
Proof. induction s as [|c s IH]; simpl; [now destruct t | now rewrite IH]. Qed.

Lemma substring_app_r (s t : string) :
  String.substring (String.length s) (String.length t) (s ++ t) = t.
Proof. induction s as [|c s IH]; simpl; [apply substring_full | exact IH]. Qed.

Lemma length_append (s t : string) :
  String.length (s ++ t) = (String.length s + String.length t)%nat.
Proof. induction s as [|c s IH]; simpl; lia. Qed.

Lemma append_assoc (s t u : string) : ((s ++ t) ++ u = s ++ (t ++ u))%string.
Proof. induction s as [|c s IH]; simpl; [reflexivity | now rewrite IH]. Qed.

Lemma substring_split (s : string) (k : nat) :
  (k <= String.length s)%nat ->
  s = (String.substring 0 k s ++ String.substring k (String.length s - k) s)%string.
Proof.
  revert k; induction s as [|c s IH]; intros k Hk.
  - destruct k; reflexivity.
  - destruct k as [|k]; simpl.
    + now rewrite substring_full.
    + simpl in Hk. f_equal. apply IH. lia.
Qed.

Lemma substring0_length_le (k : nat) (s : string) :
  (String.length (String.substring 0 k s) <= String.length s)%nat.
Proof.
  revert k; induction s as [|c s IH]; intros k; destruct k; simpl; try lia.
  specialize (IH k). lia.
Qed.

Lemma HasPrefix_app (p t : string) : HasPrefix (p ++ t) p = true.
Proof.
  unfold HasPrefix. apply prefix_correct. apply substring_app_l.
Qed.

Lemma HasPrefix_inv (s p : string) :
  HasPrefix s p = true -> exists t, s = (p ++ t)%string.
Proof.
  unfold HasPrefix. intros H. apply prefix_correct in H.
  assert (Hle : (String.length p <= String.length s)%nat).
  { rewrite <- H. apply substring0_length_le. }
  exists (String.substring (String.length p) (String.length s - String.length p) s).
  rewrite (substring_split s (String.length p) Hle) at 1. now rewrite H.
Qed.

Lemma HasSuffix_app (u t : string) : HasSuffix (u ++ t) t = true.
Proof.
  unfold HasSuffix. rewrite length_append.
  replace (String.length u + String.length t - String.length t)%nat
    with (String.length u) by lia.
  rewrite substring_app_r, String.eqb_refl.
  apply andb_true_intro; split; [apply Nat.leb_le; lia | reflexivity].
Qed.

Lemma HasSuffix_inv (s t : string) :
  HasSuffix s t = true -> exists u, s = (u ++ t)%string.
Proof.
  unfold HasSuffix. intros H. apply andb_prop in H as [Hle Heq].
  apply Nat.leb_le in Hle. apply String.eqb_eq in Heq.
  exists (String.substring 0 (String.length s - String.length t) s).
  rewrite (substring_split s (String.length s - String.length t)) at 1 by lia.
  f_equal.
  replace (String.length s - (String.length s - String.length t))%nat
    with (String.length t) by lia.
  exact Heq.
Qed.

(** ** Symbol parsing *)

Lemma isObjectRef_wrapped (s : string) : isObjectRef s = true <-> wrapped s.
Proof.
  unfold isObjectRef, wrapped. split.
  - intros H. apply andb_prop in H as [Hp Hs].
    apply HasPrefix_inv in Hp as [t ->]. apply HasSuffix_inv in Hs as [u Hu].
    destruct u as [|c u]; simpl in Hu; inversion Hu; subst.
    now exists u.
  - intros [inner ->]. apply andb_true_intro; split.
    + apply HasPrefix_app.
    + rewrite <- append_assoc. apply HasSuffix_app.
Qed.

Lemma isObjectRef_false (s : string) : ~ wrapped s -> isObjectRef s = false.
Proof.
  intros H. destruct (isObjectRef s) eqn:E; [|reflexivity].
  exfalso. apply H, isObjectRef_wrapped, E.
Qed.

Lemma trimObjectRef_wrapped (inner : string) :
  trimObjectRef ("(" ++ inner ++ ")")%string = strip_star inner.
Proof.
  unfold trimObjectRef, TrimSuffix.
  rewrite <- append_assoc, HasSuffix_app, length_append.
  replace (String.length ("(" ++ inner) + String.length ")" - String.length ")")%nat
    with (String.length ("(" ++ inner)) by (simpl; lia).
  rewrite substring_app_l.
  unfold TrimPrefix at 2. rewrite HasPrefix_app. simpl.
  replace (String.length inner - 0)%nat with (String.length inner) by lia.
  rewrite substring_full.
  unfold TrimPrefix, strip_star.
  destruct inner as [|c r]; [reflexivity|].
  destruct (ascii_dec c "*") as [->|Hne].
  - change (String "*" r) with ("*" ++ r)%string. rewrite HasPrefix_app.
    rewrite length_append.
    replace (String.length "*" + String.length r - String.length "*")%nat
      with (String.length r) by (simpl; lia).
    apply substring_app_r.
  - destruct (HasPrefix (String c r) "*") eqn:E; [|reflexivity].
    apply HasPrefix_inv in E as [t Ht]. injection Ht as Hc _. contradiction.
Qed.

Lemma findObjectRef_from_first (k : nat) (elems : list string) (i : nat)
  (seg : string) :
  first_wrapped elems i seg -> findObjectRef_from k elems = Some (k + i)%nat.
Proof.
  revert k i. induction elems as [|s rest IH]; intros k i [Hn [Hw Hbefore]].
  - destruct i; discriminate.
  - simpl. destruct i as [|i].
    + simpl in Hn. injection Hn as ->.
      apply isObjectRef_wrapped in Hw. rewrite Hw. f_equal; lia.
    + rewrite (isObjectRef_false s) by (apply (Hbefore 0%nat); [lia | reflexivity]).
      rewrite (IH (S k) i); [f_equal; lia|].
      split; [exact Hn|]. split; [exact Hw|].
      intros j s' Hj Hs'. apply (Hbefore (S j)); [lia | exact Hs'].
Qed.

Lemma findObjectRef_from_none (k : nat) (elems : list string) :
  (forall seg, In seg elems -> ~ wrapped seg) -> findObjectRef_from k elems = None.
Proof.
  revert k. induction elems as [|s rest IH]; intros k H; [reflexivity|].
  simpl. rewrite isObjectRef_false by (apply H; now left).
  apply IH. intros seg Hin. apply H. now right.
Qed.

Lemma nth_pred_last (l : list string) (d : string) :
  l <> [] -> nth (length l - 1) l d = List.last l d.
Proof.
  induction l as [|x l IH]; intros Hne; [contradiction|].
  destruct l as [|y l]; [reflexivity|].
  replace (length (x :: y :: l) - 1)%nat with (S (length (y :: l) - 1)) by (simpl; lia).
  transitivity (nth (length (y :: l) - 1) (y :: l) d); [reflexivity|]. rewrite IH by discriminate. reflexivity.
Qed.

(** C3 *)
(** Claim C3: [parseName] decomposes a raw symbol name as follows.  With
    fewer than two dot-separated segments the function name is the whole
    raw name and receiver and namespace are empty.  Otherwise, when the
    left-most parenthesized segment is at index [i], the function name is
    the dot-join of the segments after it (empty when it is the last
    segment), the receiver-type name is the segment without its
    parentheses and without at most one leading [*], and the namespace is
    the dot-join of the segments before it.  Without a parenthesized
    segment the function name is the last segment, the namespace the
    dot-join of the others, and the receiver is empty. *)
Theorem parseName_decomposition (name file : string) (line : Z) :
  let f := NewFuncInfo name file line in
  let elems := Split_dot name in
  ((length elems < 2)%nat ->
     fi_Function f = name /\ fi_Object f = "" /\ fi_Package f = "") /\
  (forall i seg, (2 <= length elems)%nat -> first_wrapped elems i seg ->
     fi_Function f = Join (skipn (S i) elems) "." /\
     (S i = length elems -> fi_Function f = "") /\
     (forall inner, seg = ("(" ++ inner ++ ")")%string ->
        fi_Object f = strip_star inner) /\
     fi_Package f = Join (firstn i elems) ".") /\
  ((2 <= length elems)%nat -> (forall seg, In seg elems -> ~ wrapped seg) ->
     fi_Function f = List.last elems "" /\ fi_Object f = "" /\
     fi_Package f = Join (removelast elems) ".").
Proof.
  intros f elems. unfold f, NewFuncInfo, parseName. cbn [fi_Name].
  fold elems. split; [|split].
  - intros H. destruct (Nat.ltb_spec (length elems) 2); [|lia].
    simpl. auto.
  - intros i seg H2 Hfw. destruct (Nat.ltb_spec (length elems) 2); [lia|].
    unfold findObjectRef. rewrite (findObjectRef_from_first 0 elems i seg Hfw).
    cbn [fi_Function fi_Object fi_Package Nat.add].
    destruct Hfw as [Hn _].
    split; [reflexivity|]. split; [|split; [|reflexivity]].
    + intros Hlast. rewrite Hlast, skipn_all. reflexivity.
    + intros inner ->. rewrite (nth_error_nth elems i EmptyString Hn).
      apply trimObjectRef_wrapped.
  - intros H2 Hnone. destruct (Nat.ltb_spec (length elems) 2); [lia|].
    unfold findObjectRef. rewrite (findObjectRef_from_none 0 elems Hnone).
    cbn [fi_Function fi_Object fi_Package].
    split; [|split; [reflexivity|]].
    + apply nth_pred_last. intros ->. simpl in H2. lia.
    + rewrite removelast_firstn_len, Nat.sub_1_r. reflexivity.
Qed.

(** ** The word-boundary prefix test *)

Lemma startsWith_word_boundary (lower_table : Z -> bool) (name prefix : string) :
  startsWith lower_table name prefix = true <->
  word_boundary_prefix lower_table prefix name.
Proof.
  unfold startsWith, word_boundary_prefix. split.
  - destruct (HasPrefix name prefix) eqn:Hp; simpl; [|discriminate].
    apply HasPrefix_inv in Hp as [rest ->]. rewrite length_append.
    destruct (Nat.eqb_spec (String.length prefix + String.length rest)
                           (String.length prefix)) as [Heq|Hne].
    + intros _. exists rest. split; [reflexivity|left].
      destruct rest; [reflexivity | simpl in Heq; lia].
    + replace (String.length prefix + String.length rest - String.length prefix)%nat
        with (String.length rest) by lia.
      rewrite substring_app_r. intros H. exists rest. split; [reflexivity|right].
      now destruct (IsLower lower_table (DecodeRuneInString rest)).
  - intros [rest [-> Hrest]]. rewrite HasPrefix_app. simpl. rewrite length_append.
    destruct Hrest as [-> | Hlow].
    + simpl. rewrite Nat.add_0_r, Nat.eqb_refl. reflexivity.
    + destruct (Nat.eqb_spec (String.length prefix + String.length rest)
                             (String.length prefix)); [reflexivity|].
      replace (String.length prefix + String.length rest - String.length prefix)%nat
        with (String.length rest) by lia.
      rewrite substring_app_r, Hlow. reflexivity.
Qed.

(** C4 *)
(** Claim C4: [IsTest] holds exactly when the parsed function name starts
    with ["Test"], ["Benchmark"] or ["Example"] and that prefix is the
    whole name or is followed by a character that is not lower case; on
    the functions [TestFoo], [Testing], [Test], [BenchmarkX] and [ExampleY]
    it gives true, false, true, true and true. *)
Theorem IsTest_word_boundary (lower_table : Z -> bool) :
  (forall f : FuncInfo,
     IsTest lower_table f = true <->
     exists p, In p ["Test"; "Benchmark"; "Example"]%string /\
               word_boundary_prefix lower_table p (fi_Function f)) /\
  IsTest lower_table (app_frame "example.com/app.TestFoo") = true /\
  IsTest lower_table (app_frame "example.com/app.Testing") = false /\
  IsTest lower_table (app_frame "example.com/app.Test") = true /\
  IsTest lower_table (app_frame "example.com/app.BenchmarkX") = true /\
  IsTest lower_table (app_frame "example.com/app.ExampleY") = true.
Proof.
  split; [|repeat split; reflexivity].
  intros f. unfold IsTest. rewrite !orb_true_iff, !startsWith_word_boundary.
  split.
  - intros [[H|H]|H]; eexists; split; try exact H; simpl; tauto.
  - intros [p [Hin H]]. simpl in Hin.
    destruct Hin as [<-|[<-|[<-|[]]]]; tauto.
Qed.

(** C5 *)
(** Claim C5 (counterexample): the receivers [Mocker] and [Mockish] are not
    mock frames: in both a lower-case letter follows ["Mock"], so the
    word-boundary rule rejects them, while the claim expects true. *)
Lemma IsMock_Mocker_Mockish_false :
  IsMock (fun _ => false) (app_frame "example.com/app.(*Mocker).Run") = false /\
  IsMock (fun _ => false) (app_frame "example.com/app.(Mockish).Run") = false.
Proof. split; reflexivity. Qed.

(** Claim C5 (amended): [IsMock] is the word-boundary prefix match of
    ["Mock"] on the receiver-type name: true for [MockLogger], false for
    [mocker] (wrong case) and false for [Mocker] and [Mockish] (a
    lower-case letter follows ["Mock"]). *)
Theorem IsMock_word_boundary (lower_table : Z -> bool) :
  (forall f : FuncInfo,
     IsMock lower_table f = true <->
     word_boundary_prefix lower_table "Mock" (fi_Object f)) /\
  IsMock lower_table (app_frame "example.com/app/mock.(*MockLogger).Info") = true /\
  IsMock lower_table (app_frame "example.com/app.(*Mocker).Run") = false /\
  IsMock lower_table (app_frame "example.com/app.(*mocker).Run") = false /\
  IsMock lower_table (app_frame "example.com/app.(Mockish).Run") = false.
Proof.
  split; [|repeat split; reflexivity].
  intros f. apply startsWith_word_boundary.
Qed.

(** ** The stack walk as a fold over the resolved frames *)

Section Walk.

Variable lower_table : Z -> bool.

Local Abbreviation step := (walk_step lower_table).

Lemma CallerFuncInfo_tag (stk : list RawFrame) (i : nat) (r : Ref) :
  CallerFuncInfo stk i = Some r -> fst r = i.
Proof.
  unfold CallerFuncInfo. destruct (nth_error stk i) as [fr|]; [|discriminate].
  destruct (String.eqb (rf_file fr) "<autogenerated>"); [discriminate|].
  destruct (rf_func fr); [|discriminate]. now intros [= <-].
Qed.

Lemma walk_loop_fold (stk : list RawFrame) (this : Ref) (fuel i : nat)
  (s : FuncInfoStack) :
  walk_loop lower_table stk this fuel i s
  = fold_left (step this) (walked stk fuel i) s.
Proof.
  revert i s. induction fuel as [|fuel IH]; intros i s; [reflexivity|].
  simpl. destruct (CallerFuncInfo stk i); [apply IH | reflexivity].
Qed.

Lemma walked_tags (stk : list RawFrame) (fuel i : nat) :
  map fst (walked stk fuel i) = seq i (length (walked stk fuel i)).
Proof.
  revert i. induction fuel as [|fuel IH]; intros i; [reflexivity|].
  simpl. destruct (CallerFuncInfo stk i) as [r|] eqn:E; [|reflexivity].
  simpl. rewrite (CallerFuncInfo_tag _ _ _ E), IH. reflexivity.
Qed.

Lemma walked_NoDup (stk : list RawFrame) (fuel i : nat) :
  List.NoDup (map fst (walked stk fuel i)).
Proof. rewrite walked_tags. apply seq_NoDup. Qed.

Lemma walked_resolved (stk : list RawFrame) (fuel i : nat) (r : Ref) :
  In r (walked stk fuel i) -> exists j, CallerFuncInfo stk j = Some r.
Proof.
  revert i. induction fuel as [|fuel IH]; intros i; [intros []|].
  simpl. destruct (CallerFuncInfo stk i) as [r'|] eqn:E; [|intros []].
  intros [<-|Hin]; [now exists i | exact (IH _ Hin)].
Qed.

Lemma BuildCallerStack_fold (stk : list RawFrame) :
  BuildCallerStack lower_table stk =
  match CallerFuncInfo stk 1 with
  | None => empty_stack
  | Some this =>
      fold_left (step this) (walked stk (length stk) 3) (walk_init this)
  end.
Proof.
  unfold BuildCallerStack. destruct (CallerFuncInfo stk 1); [|reflexivity].
  apply walk_loop_fold.
Qed.

Lemma fold_Stack (this : Ref) (l : list Ref) (s : FuncInfoStack) :
  fs_Stack (fold_left (step this) l s) = fs_Stack s ++ l.
Proof.
  revert s. induction l as [|x l IH]; intros s; simpl.
  - now rewrite app_nil_r.
  - rewrite IH. simpl. now rewrite <- app_assoc.
Qed.

Lemma BuildCallerStack_Stack (stk : list RawFrame) :
  fs_Stack (BuildCallerStack lower_table stk) =
  match CallerFuncInfo stk 1 with
  | None => []
  | Some _ => walked stk (length stk) 3
  end.
Proof.
  rewrite BuildCallerStack_fold. destruct (CallerFuncInfo stk 1); [|reflexivity].
  now rewrite fold_Stack.
Qed.

Lemma fold_last_snoc (this : Ref) (l : list Ref) (x : Ref) (s : FuncInfoStack) :
  fs_last (fold_left (step this) (l ++ [x]) s) = Some x.
Proof. now rewrite fold_left_app. Qed.

Lemma fold_last (this : Ref) (pre : list Ref) (s : FuncInfoStack) :
  fs_last s = None -> fs_last (fold_left (step this) pre s) = last pre.
Proof.
  intros H. destruct pre as [|y l] using rev_ind; [exact H|].
  now rewrite fold_last_snoc, last_snoc.
Qed.

(** Frames that are not tests leave [Test] and [Tested] alone. *)
Lemma fold_Test_keep (this : Ref) (post : list Ref) (s : FuncInfoStack) :
  Forall (fun g => IsTest lower_table (ref_info g) = false) post ->
  fs_Test (fold_left (step this) post s) = fs_Test s /\
  fs_Tested (fold_left (step this) post s) = fs_Tested s.
Proof.
  revert s. induction post as [|y post IH]; intros s Hp; [split; reflexivity|].
  inversion Hp as [|? ? Hy Hrest]; subst. simpl.
  destruct (IH (step this s y) Hrest) as [-> ->].
  unfold walk_step; simpl. now rewrite Hy.
Qed.

(** Frames that are not mocks, and not the current [Mocked] frame, leave
    [Mocked] and [Mocker] alone once [last] is not [Mocked]. *)
Lemma fold_Mock_keep (this : Ref) (post : list Ref) (s : FuncInfoStack) :
  Forall (fun g => IsMock lower_table (ref_info g) = false) post ->
  Forall (fun g => ptr_eq (Some g) (fs_Mocked s) = false) post ->
  ptr_eq (fs_last s) (fs_Mocked s) = false ->
  fs_Mocked (fold_left (step this) post s) = fs_Mocked s /\
  fs_Mocker (fold_left (step this) post s) = fs_Mocker s.
Proof.
  revert s. induction post as [|y post IH]; intros s Hm Hp Hl; [split; reflexivity|].
  inversion Hm as [|? ? Hmy Hmrest]; subst.
  inversion Hp as [|? ? Hpy Hprest]; subst. simpl.
  assert (Hmocked : fs_Mocked (step this s y) = fs_Mocked s)
    by (unfold walk_step; simpl; now rewrite Hmy).
  assert (Hmocker : fs_Mocker (step this s y) = fs_Mocker s)
    by (unfold walk_step; simpl; now rewrite Hl).
  rewrite <- Hmocked, <- Hmocker. apply IH.
  - exact Hmrest.
  - now rewrite Hmocked.
  - rewrite Hmocked. exact Hpy.
Qed.

(** Frames that are not mocks leave [Mocked] alone. *)
Lemma fold_Mocked_keep (this : Ref) (post : list Ref) (s : FuncInfoStack) :
  Forall (fun g => IsMock lower_table (ref_info g) = false) post ->
  fs_Mocked (fold_left (step this) post s) = fs_Mocked s.
Proof.
  revert s. induction post as [|y post IH]; intros s Hm; [reflexivity|].
  inversion Hm as [|? ? Hmy Hmrest]; subst. simpl.
  rewrite IH by exact Hmrest. unfold walk_step; simpl. now rewrite Hmy.
Qed.

Lemma step_Caller_keep (this : Ref) (s : FuncInfoStack) (f c : Ref) :
  fs_Caller s = Some c -> fs_Caller (step this s f) = Some c.
Proof. intros H. unfold walk_step; simpl. now rewrite H. Qed.

Lemma walk_loop_Caller_keep (stk : list RawFrame) (this : Ref) (n i : nat)
  (s : FuncInfoStack) (c : Ref) :
  fs_Caller (walk_loop lower_table stk this n i s) = Some c ->
  fs_Caller (walk_loop lower_table stk this (S n) i s) = Some c.
Proof.
  revert i s. induction n as [|n IH]; intros i s H.
  - simpl in H |- *. destruct (CallerFuncInfo stk i); [|exact H].
    now apply step_Caller_keep.
  - change (walk_loop lower_table stk this (S (S n)) i s) with
      (match CallerFuncInfo stk i with
       | None => s
       | Some f => walk_loop lower_table stk this (S n) (S i) (step this s f)
       end).
    simpl in H. destruct (CallerFuncInfo stk i); [now apply IH | exact H].
Qed.

End Walk.

(** ** Claims on the stack walk *)

(** C2 *)
(** Claim C2 (counterexample): [Test] is not first-match: when the test
    [TestOuter] calls the test-named helper [TestInner], which captures,
    the walk sets [Test] to [TestInner] at its first iteration and
    overwrites it with [TestOuter] at the second. *)
Lemma walk_Test_overwritten :
  ~ (forall (stk : list RawFrame) (n : nat) (t : Ref),
       fs_Test (walk_prefix (fun _ => false) stk n) = Some t ->
       fs_Test (walk_prefix (fun _ => false) stk (S n)) = Some t).
Proof.
  intros H.
  specialize (H (stack_from [frame_method "Capture" 260] outer_nested_tests) 1%nat
                (3%nat, NewFuncInfo "example.com/app.TestInner" "/src/app/app_test.go" 20)).
  vm_compute in H. specialize (H eq_refl). discriminate H.
Qed.

(** Claim C2 (amended): during the walk [Caller], once set, is never
    overwritten.  [Test], [Tested] and [Mocked] are overwritten by every
    later matching frame, so at the end [Test] is the last walked frame
    satisfying [IsTest], [Tested] the walked frame just before it (absent
    when it is the first), [Mocked] the last walked frame satisfying
    [IsMock], and, when that mock frame is not the last walked frame,
    [Mocker] is the walked frame right after it. *)
Theorem BuildCallerStack_field_updates (lower_table : Z -> bool)
  (stk : list RawFrame) :
  let s := BuildCallerStack lower_table stk in
  (forall n c, fs_Caller (walk_prefix lower_table stk n) = Some c ->
               fs_Caller (walk_prefix lower_table stk (S n)) = Some c) /\
  (forall pre t post, fs_Stack s = pre ++ t :: post ->
     IsTest lower_table (ref_info t) = true ->
     Forall (fun g => IsTest lower_table (ref_info g) = false) post ->
     fs_Test s = Some t /\ fs_Tested s = last pre) /\
  (forall pre m post, fs_Stack s = pre ++ m :: post ->
     IsMock lower_table (ref_info m) = true ->
     Forall (fun g => IsMock lower_table (ref_info g) = false) post ->
     fs_Mocked s = Some m) /\
  (forall pre m x post, fs_Stack s = pre ++ m :: x :: post ->
     IsMock lower_table (ref_info m) = true ->
     Forall (fun g => IsMock lower_table (ref_info g) = false) (x :: post) ->
     fs_Mocker s = Some x).
Proof.
  intros s. split; [|split; [|split]].
  - intros n c. unfold walk_prefix.
    destruct (CallerFuncInfo stk 1); [apply walk_loop_Caller_keep | tauto].
  - intros pre t post Hs Ht Hpost.
    unfold s in *. rewrite BuildCallerStack_Stack in Hs. rewrite BuildCallerStack_fold.
    destruct (CallerFuncInfo stk 1) as [this|]; [|destruct pre; discriminate].
    rewrite Hs, fold_left_app. simpl.
    rewrite !(proj1 (fold_Test_keep _ _ _ _ Hpost)),
            !(proj2 (fold_Test_keep _ _ _ _ Hpost)).
    unfold walk_step at 1 2; simpl. rewrite Ht.
    split; [reflexivity|]. now apply fold_last.
  - intros pre m post Hs Hm Hpost.
    unfold s in *. rewrite BuildCallerStack_Stack in Hs. rewrite BuildCallerStack_fold.
    destruct (CallerFuncInfo stk 1) as [this|]; [|destruct pre; discriminate].
    rewrite Hs, fold_left_app. simpl.
    rewrite fold_Mocked_keep by exact Hpost.
    unfold walk_step; simpl. now rewrite Hm.
  - intros pre m x post Hs Hm Hpost.
    unfold s in *. rewrite BuildCallerStack_Stack in Hs. rewrite BuildCallerStack_fold.
    destruct (CallerFuncInfo stk 1) as [this|]; [|destruct pre; discriminate].
    pose proof (walked_NoDup stk (length stk) 3) as Hnd. rewrite Hs in Hnd.
    rewrite map_app in Hnd. apply NoDup_app_remove_l in Hnd.
    simpl in Hnd. inversion Hnd as [|? ? Hnin Hnd']; subst.
    rewrite Hs, fold_left_app. simpl.
    inversion Hpost as [|? ? Hx Hpost']; subst.
    remember (fold_left (walk_step lower_table this) pre (walk_init this)) as s1 eqn:E1.
    assert (Hs2 : fs_Mocked (walk_step lower_table this s1 m) = Some m /\
                  fs_last (walk_step lower_table this s1 m) = Some m)
      by (unfold walk_step; simpl; now rewrite Hm).
    remember (walk_step lower_table this s1 m) as s2 eqn:E2.
    assert (Hs3 : fs_Mocked (walk_step lower_table this s2 x) = Some m /\
                  fs_Mocker (walk_step lower_table this s2 x) = Some x /\
                  fs_last (walk_step lower_table this s2 x) = Some x).
    { destruct Hs2 as [H1 H2]. unfold walk_step at 1 2 3. cbn [fs_Mocked fs_Mocker fs_last].
      rewrite Hx, H1, H2. destruct m as [k fm]. simpl.
      rewrite Nat.eqb_refl. auto. }
    remember (walk_step lower_table this s2 x) as s3 eqn:E3.
    destruct Hs3 as [H1 [H2 H3]].
    rewrite <- H2. apply (fold_Mock_keep lower_table this post s3 Hpost').
    + rewrite H1. apply Forall_forall. intros y Hy. simpl.
      destruct y as [ky fy], m as [km fm]. simpl.
      apply Nat.eqb_neq. intros ->. apply Hnin.
      right. apply in_map_iff. exists (km, fy). split; [reflexivity | apply list_elem_of_In; exact Hy].
    + rewrite H1, H3. simpl. destruct x as [kx fx], m as [km fm]. simpl.
      apply Nat.eqb_neq. intros ->. apply Hnin. now left.
Qed.

Lemma MockedCall_no_Mocked (s : FuncInfoStack) :
  fs_Mocked s = None -> MockedCall s = None.
Proof. intros H. unfold MockedCall. rewrite H. now destruct (fs_Mocker s). Qed.

Lemma BuildCallerStack_Mocked_none (lower_table : Z -> bool) (stk : list RawFrame) :
  (forall i r, CallerFuncInfo stk i = Some r -> IsMock lower_table (ref_info r) = false) ->
  fs_Mocked (BuildCallerStack lower_table stk) = None.
Proof.
  intros H. rewrite BuildCallerStack_fold.
  destruct (CallerFuncInfo stk 1) as [this|]; [|reflexivity].
  rewrite fold_Mocked_keep; [reflexivity|].
  apply Forall_forall. intros r Hr. apply list_elem_of_In in Hr.
  destruct (walked_resolved stk _ _ r Hr) as [j Hj]. exact (H j r Hj).
Qed.

(** C1 *)
(** Claim C1 (code behaviour at the divergence): on a walk in which no
    frame is a mock, [Mocked] stays absent but [Mocker] is set to the first
    walked frame: at the first iteration [s.last == s.Mocked] compares two
    [nil] pointers and succeeds, and no later iteration changes it. *)
Theorem BuildCallerStack_no_mock_Mocker_first (lower_table : Z -> bool)
  (stk : list RawFrame) (f : Ref) (rest : list Ref) :
  fs_Stack (BuildCallerStack lower_table stk) = f :: rest ->
  Forall (fun g => IsMock lower_table (ref_info g) = false) (f :: rest) ->
  fs_Mocked (BuildCallerStack lower_table stk) = None /\
  fs_Mocker (BuildCallerStack lower_table stk) = Some f.
Proof.
  intros Hs Hm. rewrite BuildCallerStack_Stack in Hs. rewrite BuildCallerStack_fold.
  destruct (CallerFuncInfo stk 1) as [this|]; [|discriminate].
  rewrite Hs. simpl. inversion Hm as [|? ? Hf Hrest]; subst.
  assert (H1 : fs_Mocked (walk_step lower_table this (walk_init this) f) = None /\
               fs_Mocker (walk_step lower_table this (walk_init this) f) = Some f /\
               fs_last (walk_step lower_table this (walk_init this) f) = Some f)
    by (unfold walk_step; simpl; now rewrite Hf).
  destruct H1 as [H1 [H2 H3]].
  rewrite <- H1, <- H2. apply fold_Mock_keep; [exact Hrest| |].
  - rewrite H1. apply Forall_forall. intros [k g] _. reflexivity.
  - rewrite H1, H3. destruct f. reflexivity.
Qed.

(** C10 *)
(** Claim C10: when no frame of the active stack is a mock frame,
    [GetMockedCallName] derives the key from a [nil] [Mocked] frame and
    panics with a nil pointer dereference; it neither returns a key nor
    fails the test. *)
Theorem GetMockedCallName_no_mock_panics (lower_table : Z -> bool)
  (outer : list RawFrame) (x : BaseTest) :
  (forall i r,
     CallerFuncInfo (stack_from [frame_method "GetMockedCallName" 496] outer) i = Some r ->
     IsMock lower_table (ref_info r) = false) ->
  GetMockedCallName lower_table outer x = Panic nil_deref.
Proof.
  intros H. unfold GetMockedCallName.
  rewrite MockedCall_no_Mocked; [reflexivity|].
  now apply BuildCallerStack_Mocked_none.
Qed.


Lemma CallerFuncInfo_beyond (stk : list RawFrame) (i : nat) :
  (length stk <= i)%nat -> CallerFuncInfo stk i = None.
Proof.
  intros H. unfold CallerFuncInfo. now rewrite (proj2 (nth_error_None stk i) H).
Qed.

Lemma walked_nth (stk : list RawFrame) (fuel i j : nat) (r : Ref) :
  nth_error (walked stk fuel i) j = Some r <->
  (j < fuel)%nat /\ (forall k, (k < j)%nat -> CallerFuncInfo stk (i + k) <> None) /\
  CallerFuncInfo stk (i + j) = Some r.
Proof.
  revert i j. induction fuel as [|fuel IH]; intros i j.
  - simpl. rewrite nth_error_nil. split; [discriminate | lia].
  - simpl. destruct (CallerFuncInfo stk i) as [f|] eqn:E.
    + destruct j as [|j].
      * simpl. rewrite Nat.add_0_r, E. split.
        -- intros H. repeat split; [lia | intros; lia | exact H].
        -- intros (_ & _ & H). exact H.
      * simpl. rewrite IH. replace (i + S j)%nat with (S i + j)%nat by lia. split.
        -- intros (H1 & H2 & H3). repeat split; [lia| |exact H3].
           intros [|k] Hk; [rewrite Nat.add_0_r, E; discriminate|].
           replace (i + S k)%nat with (S i + k)%nat by lia. apply H2. lia.
        -- intros (H1 & H2 & H3). repeat split; [lia| |exact H3].
           intros k Hk. replace (S i + k)%nat with (i + S k)%nat by lia. apply H2. lia.
    + rewrite nth_error_nil. split; [discriminate|].
      intros (_ & H2 & H3). destruct j as [|j].
      * rewrite Nat.add_0_r, E in H3. discriminate.
      * exfalso. apply (H2 0%nat); [lia|]. now rewrite Nat.add_0_r.
Qed.

Lemma fold_Caller (lower_table : Z -> bool) (this : Ref) (l : list Ref)
  (s : FuncInfoStack) :
  fs_Caller (fold_left (walk_step lower_table this) l s) =
  match fs_Caller s with
  | Some c => Some c
  | None => List.find (fun f => negb (String.eqb (fi_Package (ref_info f))
                                                  (fi_Package (ref_info this)))) l
  end.
Proof.
  revert s. induction l as [|f l IH]; intros s; simpl.
  - now destruct (fs_Caller s).
  - rewrite IH. unfold walk_step. cbn [fs_Caller].
    destruct (fs_Caller s); [reflexivity|].
    now destruct (negb _).
Qed.

Lemma BuildCallerStack_Caller_find (lower_table : Z -> bool) (stk : list RawFrame) :
  fs_Caller (BuildCallerStack lower_table stk) =
  match CallerFuncInfo stk 1 with
  | None => None
  | Some this =>
      List.find (fun f => negb (String.eqb (fi_Package (ref_info f))
                                           (fi_Package (ref_info this))))
                (fs_Stack (BuildCallerStack lower_table stk))
  end.
Proof.
  rewrite BuildCallerStack_Stack, BuildCallerStack_fold.
  destruct (CallerFuncInfo stk 1) as [this|]; [|reflexivity].
  now rewrite fold_Caller.
Qed.

Lemma CallerFuncInfo_resolves (stk : list RawFrame) (d : nat) (fr : RawFrame) :
  nth_error stk d = Some fr -> frame_resolves fr = true ->
  exists r, CallerFuncInfo stk d = Some r /\
            fi_Package (ref_info r) = frame_package fr.
Proof.
  intros Hn Hr. unfold CallerFuncInfo. rewrite Hn.
  unfold frame_resolves in Hr. apply andb_prop in Hr as [H1 H2].
  apply negb_true_iff in H1. rewrite H1.
  unfold frame_package. destruct (rf_func fr) as [name|]; [|discriminate H2].
  eexists. split; reflexivity.
Qed.

(** Under a method frame [m] of this package whose frames above
    [BuildCallerStack] resolve, a walk over a goroutine's stack finds its
    [Caller]. *)
Lemma stack_from_Caller (lower_table : Z -> bool) (m : RawFrame)
  (above outer : list RawFrame) :
  forallb frame_resolves above = true -> reaches_outside outer ->
  exists c, fs_Caller (BuildCallerStack lower_table
                         (stack_from (m :: above) outer)) = Some c.
Proof.
  intros Ha (pre & fr & post & -> & Hpre & Hfr & Hpkg).
  set (stk := stack_from (m :: above) (pre ++ fr :: post)).
  assert (Hthis : CallerFuncInfo stk 1 =
    Some (1%nat, NewFuncInfo (core_pkg ++ ".(*BaseTest).BuildCallerStack") core_file 467))
    by reflexivity.
  rewrite BuildCallerStack_Caller_find, BuildCallerStack_Stack, Hthis.
  assert (Hp : fi_Package (NewFuncInfo (core_pkg ++ ".(*BaseTest).BuildCallerStack")
                             core_file 467) = core_pkg) by (vm_compute; reflexivity).
  cbn [ref_info snd]. rewrite Hp.
  set (j := (length above + length pre)%nat).
  assert (Hnth : forall k, nth_error stk (3 + k) = nth_error (above ++ pre ++ fr :: post) k)
    by reflexivity.
  assert (Hfr_at : nth_error stk (3 + j) = Some fr).
  { rewrite Hnth, app_assoc, nth_error_app2 by (rewrite length_app; lia).
    rewrite length_app. unfold j. now rewrite Nat.sub_diag. }
  destruct (CallerFuncInfo_resolves stk (3 + j) fr Hfr_at Hfr) as (r & Hr & Hrp).
  assert (Hin : In r (walked stk (length stk) 3)).
  { apply nth_error_In with j. apply walked_nth. repeat split.
    - unfold stk, stack_from, j. simpl. rewrite !length_app. simpl. lia.
    - intros k Hk. assert (Hk' : (k < length (above ++ pre))%nat)
        by (rewrite length_app; unfold j in Hk; lia).
      destruct (nth_error (above ++ pre) k) as [g|] eqn:Eg;
        [|apply nth_error_None in Eg; lia].
      assert (Hg : frame_resolves g = true).
      { apply forallb_forall with (l := above ++ pre); [|exact (nth_error_In _ _ Eg)].
        rewrite forallb_app, Ha, Hpre. reflexivity. }
      assert (Eg' : nth_error stk (3 + k) = Some g).
      { rewrite Hnth, app_assoc, nth_error_app1 by exact Hk'. exact Eg. }
      destruct (CallerFuncInfo_resolves stk (3 + k) g Eg' Hg) as (r' & Hr' & _).
      rewrite Hr'. discriminate.
    - exact Hr. }
  destruct (List.find _ _) as [c|] eqn:Ef; [now exists c|].
  exfalso. apply (find_none _ _ Ef) in Hin. rewrite Hrp in Hin.
  apply Hpkg. apply negb_false_iff, String.eqb_eq in Hin. exact Hin.
Qed.

(** ** Claims on the capture store *)

(** Once the walk has set [Mocker], it stays set; while it is unset, no
    frame has been walked and no [Mocked] frame found. *)
Lemma fold_Mocker_inv (lower_table : Z -> bool) (this : Ref) (l : list Ref)
  (s : FuncInfoStack) :
  (fs_Mocker s = None -> fs_last s = None /\ fs_Mocked s = None) ->
  fs_Mocker (fold_left (walk_step lower_table this) l s) = None ->
  fs_last (fold_left (walk_step lower_table this) l s) = None /\
  fs_Mocked (fold_left (walk_step lower_table this) l s) = None.
Proof.
  revert s. induction l as [|f l IH]; intros s Hs; simpl; [exact Hs|].
  apply IH. unfold walk_step. cbn [fs_Mocker fs_last fs_Mocked].
  intros H. destruct (ptr_eq (fs_last s) (fs_Mocked s)) eqn:E; [discriminate|].
  destruct (Hs H) as [H1 H2]. rewrite H1, H2 in E. discriminate.
Qed.

(** A walk that finds a [Mocked] frame also sets [Mocker], so
    [MockedCall] gives a key. *)
Lemma BuildCallerStack_Mocked_MockedCall (lower_table : Z -> bool)
  (stk : list RawFrame) (m : Ref) :
  fs_Mocked (BuildCallerStack lower_table stk) = Some m ->
  exists mr, fs_Mocker (BuildCallerStack lower_table stk) = Some mr /\
    MockedCall (BuildCallerStack lower_table stk) =
      Some (Join [fi_Object (ref_info mr); fi_Function (ref_info mr);
                  fi_Object (ref_info m); fi_Function (ref_info m)] ".").
Proof.
  intros H. destruct (fs_Mocker (BuildCallerStack lower_table stk)) as [mr|] eqn:E.
  - exists mr. split; [reflexivity|]. unfold MockedCall. now rewrite E, H.
  - exfalso. rewrite BuildCallerStack_fold in H, E.
    destruct (CallerFuncInfo stk 1) as [this|]; [|discriminate].
    destruct (fold_Mocker_inv lower_table this _ (walk_init this)
                (fun _ => conj eq_refl eq_refl) E) as [_ H2].
    congruence.
Qed.

Lemma Capture_mocked (lower_table : Z -> bool) (outer : list RawFrame)
  (vs : list Value) (x : BaseTest) (key : string) :
  MockedCall (BuildCallerStack lower_table
                (stack_from [frame_method "Capture" 260] outer)) = Some key ->
  Capture lower_table outer vs x =
    Ok tt {| bt_captured := bt_captured x ++ vs;
             bt_capsFrom := <[key := match bt_capsFrom x !! key with
                                     | Some caps => caps
                                     | None => []
                                     end ++ vs]> (bt_capsFrom x);
             bt_logs := bt_logs x |}.
Proof.
  intros H. unfold Capture. cbv zeta.
  destruct (fs_Mocked (BuildCallerStack lower_table
                         (stack_from [frame_method "Capture" 260] outer))) eqn:E.
  - now rewrite H.
  - rewrite MockedCall_no_Mocked in H; [discriminate | exact E].
Qed.

Lemma CapturedFrom_found (lower_table : Z -> bool) (outer : list RawFrame)
  (key : string) (x : BaseTest) (b : list Value) :
  bt_capsFrom x !! key = Some b -> CapturedFrom lower_table outer key x = Ok b x.
Proof.
  intros H. unfold CapturedFrom.
  destruct (capsFrom_entries x) eqn:E.
  - exfalso. apply elem_of_map_to_list in H. unfold capsFrom_entries in E.
    rewrite E in H. now apply elem_of_nil in H.
  - simpl. now rewrite H.
Qed.

(** C6 *)
(** Claim C6: for a call of [Capture] on a goroutine's stack, when the
    walk finds no mock frame, [Capture] appends the values to the global
    list only and logs a diagnostic naming [Caller], without failing the
    test; when it finds one, the values are appended both to the global
    list and to the list of the key [MockedCall] derives from [Mocker] and
    [Mocked] (their [Object] and [Function] joined by ["."]), so two
    captures under one key read back in order. *)
Theorem Capture_outcome (lower_table : Z -> bool) (outer : list RawFrame)
  (vs : list Value) (x : BaseTest) :
  reaches_outside outer ->
  let stack := BuildCallerStack lower_table
                 (stack_from [frame_method "Capture" 260] outer) in
  (fs_Mocked stack = None ->
   exists c, fs_Caller stack = Some c /\
   Capture lower_table outer vs x =
     Ok tt {| bt_captured := bt_captured x ++ vs;
              bt_capsFrom := bt_capsFrom x;
              bt_logs := bt_logs x ++ ["NO MOCK FOUND FOR CAPTURE from "
                                         ++ LogString (ref_info c)]%string |}) /\
  (forall m, fs_Mocked stack = Some m ->
   exists mr, fs_Mocker stack = Some mr /\
   Capture lower_table outer vs x =
     Ok tt {| bt_captured := bt_captured x ++ vs;
              bt_capsFrom :=
                <[Join [fi_Object (ref_info mr); fi_Function (ref_info mr);
                        fi_Object (ref_info m); fi_Function (ref_info m)] "." :=
                  match bt_capsFrom x !! Join [fi_Object (ref_info mr);
                          fi_Function (ref_info mr); fi_Object (ref_info m);
                          fi_Function (ref_info m)] "." with
                  | Some caps => caps
                  | None => []
                  end ++ vs]> (bt_capsFrom x);
              bt_logs := bt_logs x |}) /\
  (forall outer1 outer2 outer3 key vs1 vs2 y,
   MockedCall (BuildCallerStack lower_table
                 (stack_from [frame_method "Capture" 260] outer1)) = Some key ->
   MockedCall (BuildCallerStack lower_table
                 (stack_from [frame_method "Capture" 260] outer2)) = Some key ->
   exists y1 y2,
     Capture lower_table outer1 vs1 y = Ok tt y1 /\
     Capture lower_table outer2 vs2 y1 = Ok tt y2 /\
     CapturedFrom lower_table outer3 key y2 =
       Ok (match bt_capsFrom y !! key with
           | Some caps => caps
           | None => []
           end ++ vs1 ++ vs2) y2).
Proof.
  intros Hout. cbv zeta. split; [|split].
  - intros H1.
    destruct (stack_from_Caller lower_table (frame_method "Capture" 260) [] outer
                eq_refl Hout) as [c Hc].
    exists c. split; [exact Hc|].
    unfold Capture. cbv zeta. now rewrite H1, Hc.
  - intros m H. destruct (BuildCallerStack_Mocked_MockedCall _ _ _ H) as [mr [Hmr Hk]].
    exists mr. split; [exact Hmr|]. now apply Capture_mocked.
  - intros outer1 outer2 outer3 key vs1 vs2 y H1 H2.
    rewrite (Capture_mocked _ _ _ _ _ H1). do 2 eexists. split; [reflexivity|].
    rewrite (Capture_mocked _ _ _ _ _ H2). split; [reflexivity|].
    apply CapturedFrom_found. simpl. rewrite !lookup_insert_eq.
    now rewrite <- app_assoc.
Qed.


(** The matcher [capturedOfType] applies is the assignability of the
    value's dynamic type to that of [expectTypeOf]. *)
Lemma match_assignable (e v : Value) :
  match AssignableToTypeOf_Match e v with (true, None) => true | _ => false end = true
  <-> assignable_to_type_of e v.
Proof.
  unfold assignable_to_type_of.
  destruct v, e; simpl; split; intros H; try reflexivity; try discriminate;
    try (do 2 eexists; repeat split; reflexivity);
    destruct H as (t & u & H1 & H2 & H3); try discriminate;
    injection H1 as <-; injection H2 as <-; discriminate H3.
Qed.

Lemma capturedOfType_In (e : Value) (l : list Value) (v : Value) :
  In v (capturedOfType e l) <-> In v l /\ assignable_to_type_of e v.
Proof. unfold capturedOfType. rewrite filter_In. now rewrite match_assignable. Qed.

Lemma CapturedOfType_members (e : Value) (x : BaseTest) (v : Value) :
  In v (List.concat (map (fun kv => capturedOfType e kv.2) (capsFrom_entries x)))
  <-> exists key bucket, bt_capsFrom x !! key = Some bucket /\ In v bucket /\
                         assignable_to_type_of e v.
Proof.
  rewrite in_concat. split.
  - intros (l & Hl & Hv). apply in_map_iff in Hl as ([k b] & <- & Hkb).
    apply capturedOfType_In in Hv as [Hv Ha]. exists k, b. split; [|auto].
    apply elem_of_map_to_list. apply list_elem_of_In. exact Hkb.
  - intros (k & b & Hkb & Hv & Ha). exists (capturedOfType e b). split.
    + apply in_map_iff. exists (k, b). split; [reflexivity|].
      apply list_elem_of_In, elem_of_map_to_list. exact Hkb.
    + apply capturedOfType_In. auto.
Qed.

(** C7 *)
(** Claim C7: on a goroutine's stack, [CapturedOfType] collects, over all
    keys, the captured values whose type is assignable to that of
    [expectTypeOf] (an empty store gives none); a non-empty result is
    returned, and an empty one fails the test with a diagnostic naming
    [Caller], never returning an empty list. *)
Theorem CapturedOfType_outcome (lower_table : Z -> bool) (outer : list RawFrame)
  (e : Value) (x : BaseTest) :
  reaches_outside outer ->
  let caps := List.concat (map (fun kv => capturedOfType e kv.2)
                              (capsFrom_entries x)) in
  (forall v, In v caps <-> exists key bucket, bt_capsFrom x !! key = Some bucket /\
                                              In v bucket /\ assignable_to_type_of e v) /\
  (bt_capsFrom x = ∅ -> caps = []) /\
  (caps <> [] -> CapturedOfType lower_table outer e x = Ok caps x) /\
  (caps = [] -> exists c,
   caller_log lower_table [frame_method "CapturedOfType" 302] outer = Some c /\
   CapturedOfType lower_table outer e x =
     Fatal ("There were no captured parameters of type " ++ fmt_T e
            ++ " for " ++ c)%string x).
Proof.
  intros Hout caps. split; [apply CapturedOfType_members|].
  split; [intros H; unfold caps, capsFrom_entries; now rewrite H, map_to_list_empty|].
  assert (Hu : CapturedOfType lower_table outer e x =
               if Nat.eqb (length caps) 0 then
                 match caller_log lower_table [frame_method "CapturedOfType" 302] outer with
                 | None => Panic nil_deref
                 | Some c => Fatal ("There were no captured parameters of type "
                                    ++ fmt_T e ++ " for " ++ c)%string x
                 end
               else Ok caps x) by reflexivity.
  clearbody caps. rewrite Hu. split.
  - intros H. destruct caps; [contradiction | reflexivity].
  - intros ->.
    destruct (stack_from_Caller lower_table (frame_method "GetCallerInfo" 501)
                [frame_method "CapturedOfType" 302] outer eq_refl Hout) as [c Hc].
    unfold caller_log. rewrite Hc.
    exists (LogString (ref_info c)). split; reflexivity.
Qed.



Lemma wrap64_small (z : Z) : -2 ^ 63 <= z < 2 ^ 63 -> wrap64 z = z.
Proof.
  intros H. unfold wrap64. rewrite Z.mod_small; [lia|].
  split; [lia|]. replace (2 ^ 64) with (2 ^ 63 + 2 ^ 63) by reflexivity. lia.
Qed.

Lemma length_nonempty_eqb (l : list Value) : l <> [] -> Nat.eqb (length l) 0 = false.
Proof. destruct l; [contradiction | reflexivity]. Qed.

(** C8 *)
(** Claim C8 (code behaviour, including the divergence): [Captured] fails
    the test when nothing was captured or the index is past the end of the
    global list, returns the value at an index in range whose type is
    assignable to that of [expectTypeOf] and fails the test when it is
    not; but a negative index passes the only bound check
    ([len >= index+1]) and panics on the slice access.  After capturing
    [42] with no mock, index 0 gives [42], index 0 with a [string] fails
    the test, index -1 panics. *)
Theorem Captured_outcome (idx : Z) (e : Value) (x : BaseTest) :
  (bt_captured x = [] ->
   Captured idx e x = Fatal "There were no captured parameter values!" x) /\
  (bt_captured x <> [] -> 0 <= idx < Z.of_nat (length (bt_captured x)) ->
   idx < 2 ^ 63 - 1 -> forall v, nth_error (bt_captured x) (Z.to_nat idx) = Some v ->
   (assignable_to_type_of e v -> Captured idx e x = Ok v x) /\
   (~ assignable_to_type_of e v ->
    Captured idx e x =
      Fatal ("Captured parameter type " ++ fmt_T v ++ " at index " ++ pretty idx
             ++ " is not assignable to type " ++ fmt_T e)%string x)) /\
  (bt_captured x <> [] -> Z.of_nat (length (bt_captured x)) <= idx < 2 ^ 63 - 1 ->
   Captured idx e x =
     Fatal ("There were only " ++ pretty (Z.of_nat (length (bt_captured x)))
            ++ " captured parameter values - cannot retrieve index "
            ++ pretty idx)%string x) /\
  (bt_captured x <> [] -> -2 ^ 63 <= idx < 0 ->
   Captured idx e x = Panic index_out_of_range) /\
  match Capture (fun _ => false) outer_direct [VInt 42] New with
  | Ok _ x1 =>
      Captured 0 (VInt 0) x1 = Ok (VInt 42) x1 /\
      Captured 0 (VString EmptyString) x1 =
        Fatal "Captured parameter type int at index 0 is not assignable to type string" x1 /\
      Captured (-1) (VInt 0) x1 = Panic index_out_of_range
  | _ => False
  end.
Proof.
  split; [|split; [|split; [|split]]].
  - intros H. unfold Captured. cbv zeta. now rewrite H.
  - intros Hne [H0 H1] Hmax v Hv. unfold Captured. cbv zeta.
    rewrite (length_nonempty_eqb _ Hne), wrap64_small by lia.
    replace (Z.of_nat (length (bt_captured x)) >=? idx + 1) with true
      by (symmetry; apply Z.geb_le; lia).
    replace ((idx <? 0) || (Z.of_nat (length (bt_captured x)) <=? idx)) with false
      by (symmetry; apply orb_false_intro; [apply Z.ltb_ge | apply Z.leb_gt]; lia).
    cbn [negb]. rewrite (nth_error_nth (bt_captured x) (Z.to_nat idx) VNil Hv).
    pose proof (match_assignable e v) as Hm.
    destruct (AssignableToTypeOf_Match e v) as [[|] [|]]; split; intros Ha;
      try reflexivity; exfalso; first [now apply Ha, Hm | now apply Hm in Ha].
  - intros Hne [H0 H1]. unfold Captured. cbv zeta.
    rewrite (length_nonempty_eqb _ Hne), wrap64_small by lia.
    replace (Z.of_nat (length (bt_captured x)) >=? idx + 1) with false
      by (symmetry; rewrite Z.geb_leb; apply Z.leb_gt; lia).
    reflexivity.
  - intros Hne [H0 H1]. unfold Captured. cbv zeta.
    rewrite (length_nonempty_eqb _ Hne), wrap64_small by lia.
    replace (Z.of_nat (length (bt_captured x)) >=? idx + 1) with true
      by (symmetry; apply Z.geb_le; lia).
    replace (idx <? 0) with true by (symmetry; apply Z.ltb_lt; lia).
    reflexivity.
  - vm_compute. repeat split; reflexivity.
Qed.

(** C9 *)
(** Claim C9 (code behaviour at the divergence): when the key has a list,
    [CapturedOfTypeFromCall] returns its values assignable to the type of
    [expectTypeOf] if there are some; if there are none, it fails the test
    with a diagnostic whose list of candidate values is always empty: the
    code builds it by ranging over the (empty) filtered list instead of
    the key's values. *)
Theorem CapturedOfTypeFromCall_outcome (lower_table : Z -> bool)
  (outer : list RawFrame) (e : Value) (key : string) (x : BaseTest)
  (b : list Value) :
  bt_capsFrom x !! key = Some b ->
  (capturedOfType e b <> [] ->
   CapturedOfTypeFromCall lower_table outer e key x = Ok (capturedOfType e b) x) /\
  (capturedOfType e b = [] -> forall c,
   caller_log lower_table [frame_method "CapturedOfTypeFromCall" 333] outer = Some c ->
   CapturedOfTypeFromCall lower_table outer e key x =
     Fatal ("at " ++ c ++ " there were no captures of type " ++ fmt_T e
            ++ " from mock call '" ++ key ++ "'!  keys " ++ fmt_strings (capturedKeys x)
            ++ "  values " ++ fmt_strings [])%string x).
Proof.
  intros Hb. unfold CapturedOfTypeFromCall.
  rewrite (CapturedFrom_found _ _ _ _ _ Hb). cbv zeta. split.
  - intros H. destruct (capturedOfType e b); [contradiction | reflexivity].
  - intros -> c Hc. simpl. now rewrite Hc.
Qed.


(* ================================================================== *)
(** * Further properties of the code *)

(** ** The capture store *)

Lemma concat_snd_perm (l1 l2 : list (string * list Value)) :
  l1 ≡ₚ l2 -> List.concat (map snd l1) ≡ₚ List.concat (map snd l2).
Proof.
  induction 1 as [| |x y l|]; simpl.
  - reflexivity.
  - now apply Permutation_app_head.
  - rewrite !app_assoc. apply Permutation_app_tail, Permutation_app_comm.
  - etransitivity; eassumption.
Qed.

Lemma buckets_total_insert_new (m : gmap string (list Value)) (k : string)
  (b : list Value) :
  m !! k = None ->
  List.concat (map snd (map_to_list (<[k:=b]> m)))
    ≡ₚ b ++ List.concat (map snd (map_to_list m)).
Proof. intros H. apply (concat_snd_perm _ ((k, b) :: _)). now apply map_to_list_insert. Qed.

Lemma buckets_total_split (m : gmap string (list Value)) (k : string)
  (b : list Value) :
  m !! k = Some b ->
  List.concat (map snd (map_to_list m))
    ≡ₚ b ++ List.concat (map snd (map_to_list (delete k m))).
Proof.
  intros H. rewrite <- (insert_delete_id m k b H) at 1.
  apply buckets_total_insert_new, lookup_delete_eq.
Qed.

Lemma buckets_total_replace (m : gmap string (list Value)) (k : string)
  (b : list Value) :
  List.concat (map snd (map_to_list (<[k:=b]> m)))
    ≡ₚ b ++ List.concat (map snd (map_to_list (delete k m))).
Proof.
  rewrite <- insert_delete_eq. apply buckets_total_insert_new, lookup_delete_eq.
Qed.

Lemma buckets_in_global_New : buckets_in_global New.
Proof.
  split.
  - intros k b Hk. simpl in Hk. now rewrite lookup_empty in Hk.
  - simpl. rewrite map_to_list_empty. apply submseteq_nil_l.
Qed.

Lemma Capture_buckets_in_global (lower_table : Z -> bool) (outer : list RawFrame)
  (vs : list Value) (x x' : BaseTest) :
  buckets_in_global x -> Capture lower_table outer vs x = Ok tt x' ->
  buckets_in_global x'.
Proof.
  intros [Hsub Hms] Hc. unfold Capture in Hc. cbv zeta in Hc.
  destruct (fs_Mocked _); [destruct (MockedCall _) as [key|]; [|discriminate]
                          | destruct (fs_Caller _); [|discriminate]];
    inversion Hc; subst; clear Hc; unfold buckets_in_global; simpl.
  - split.
    + intros k b Hk. destruct (decide (k = key)) as [->|Hne].
      * rewrite lookup_insert_eq in Hk. injection Hk as <-.
        apply sublist_app; [|reflexivity].
        destruct (bt_capsFrom x !! key) eqn:E; [now apply (Hsub key) | apply sublist_nil_l].
      * rewrite lookup_insert_ne in Hk by congruence.
        apply sublist_inserts_r. exact (Hsub k b Hk).
    + etransitivity; [apply Permutation_submseteq, buckets_total_replace|].
      destruct (bt_capsFrom x !! key) as [b0|] eqn:E.
      * etransitivity; [|apply submseteq_app; [exact Hms | reflexivity]].
        apply Permutation_submseteq.
        rewrite (buckets_total_split _ _ _ E), <- !app_assoc.
        apply Permutation_app_head, Permutation_app_comm.
      * rewrite delete_id by exact E. simpl.
        etransitivity; [apply Permutation_submseteq, Permutation_app_comm|].
        apply submseteq_app; [exact Hms | reflexivity].
  - split.
    + intros k b Hk. apply sublist_inserts_r. exact (Hsub k b Hk).
    + apply submseteq_inserts_r. exact Hms.
Qed.


(** X1: [Capture] never fails the test; when it does not panic, the
    global list [AllCaptured] is the previous one followed by the
    captured values, whether or not a mock was found. *)
Theorem Capture_appends_AllCaptured (lower_table : Z -> bool)
  (outer : list RawFrame) (vs : list Value) (x : BaseTest) :
  match Capture lower_table outer vs x with
  | Ok _ x' => AllCaptured x' = AllCaptured x ++ vs
  | Fatal _ _ => False
  | Panic _ => True
  end.
Proof.
  unfold Capture. cbv zeta.
  destruct (fs_Mocked _); [destruct (MockedCall _) | destruct (fs_Caller _)];
    reflexivity || exact I.
Qed.

(** X2: starting from [New], every [Capture] keeps the store consistent:
    each key's list is an ordered sublist of the global list, and the
    lists of all keys together are a sub-multiset of it. *)
Theorem Capture_keeps_buckets_in_global :
  buckets_in_global New /\
  forall lower_table outer vs x x',
    buckets_in_global x -> Capture lower_table outer vs x = Ok tt x' ->
    buckets_in_global x'.
Proof.
  split; [exact buckets_in_global_New|].
  intros lower_table outer vs x x'. apply Capture_buckets_in_global.
Qed.

Lemma filter_sublist {A : Type} (f : A -> bool) (l : list A) :
  sublist (List.filter f l) l.
Proof.
  induction l as [|v l IH]; simpl; [apply sublist_nil_l|].
  destruct (f v); [now apply sublist_skip | now apply sublist_cons].
Qed.

Lemma capturedOfType_sublist (e : Value) (l : list Value) :
  sublist (capturedOfType e l) l.
Proof. apply filter_sublist. Qed.

Lemma concat_capturedOfType_sublist (e : Value) (l : list (string * list Value)) :
  sublist (List.concat (map (fun kv => capturedOfType e kv.2) l))
          (List.concat (map snd l)).
Proof.
  induction l as [|kv l IH]; simpl; [apply sublist_nil_l|].
  apply sublist_app; [apply capturedOfType_sublist | exact IH].
Qed.

Lemma CapturedOfType_Ok (lower_table : Z -> bool) (outer : list RawFrame)
  (e : Value) (x x' : BaseTest) (caps : list Value) :
  CapturedOfType lower_table outer e x = Ok caps x' ->
  caps = List.concat (map (fun kv => capturedOfType e kv.2) (capsFrom_entries x)) /\
  x' = x /\ caps <> [].
Proof.
  unfold CapturedOfType. cbv zeta.
  destruct (Nat.eqb _ 0) eqn:El; [destruct (caller_log _ _ _); discriminate|].
  intros H. inversion H; subst. repeat split.
  intros Hn. rewrite Hn in El. discriminate.
Qed.

Lemma CapturedFrom_Ok (lower_table : Z -> bool) (outer : list RawFrame)
  (key : string) (x x' : BaseTest) (b : list Value) :
  CapturedFrom lower_table outer key x = Ok b x' ->
  bt_capsFrom x !! key = Some b /\ x' = x.
Proof.
  unfold CapturedFrom. destruct (Nat.eqb _ 0); [discriminate|].
  destruct (bt_capsFrom x !! key); [intros H; now inversion H|].
  destruct (caller_log _ _ _); discriminate.
Qed.

(** X3: in a consistent store, what the retrieval methods return was
    captured: [CapturedOfType]'s result is a sub-multiset of
    [AllCaptured], [CapturedFrom]'s an ordered sublist of it, and
    [FirstCapturedOfType]'s value an element of it. *)
Theorem retrieved_in_AllCaptured (lower_table : Z -> bool) (outer : list RawFrame)
  (x : BaseTest) :
  buckets_in_global x ->
  (forall e caps x', CapturedOfType lower_table outer e x = Ok caps x' ->
                     caps ⊆+ AllCaptured x) /\
  (forall key b x', CapturedFrom lower_table outer key x = Ok b x' ->
                    sublist b (AllCaptured x)) /\
  (forall e v x', FirstCapturedOfType lower_table outer e x = Ok v x' ->
                  In v (AllCaptured x)).
Proof.
  intros [Hsub Hms].
  assert (Hc : forall outer' e caps x',
            CapturedOfType lower_table outer' e x = Ok caps x' -> caps ⊆+ AllCaptured x).
  { intros outer' e caps x' H. apply CapturedOfType_Ok in H as [-> _].
    etransitivity; [apply sublist_submseteq, concat_capturedOfType_sublist | exact Hms]. }
  split; [|split].
  - apply Hc.
  - intros key b x' H. apply CapturedFrom_Ok in H as [H _]. exact (Hsub key b H).
  - intros e v x' H. unfold FirstCapturedOfType in H.
    destruct (CapturedOfType _ _ _ _) as [caps x1| |] eqn:E; try discriminate.
    destruct caps as [|v' caps]; [discriminate|]. injection H as -> _.
    apply list_elem_of_In. apply (elem_of_submseteq (v :: caps)); [left|].
    exact (Hc _ _ _ _ E).
Qed.

Lemma map_fst_fmap {A B : Type} (l : list (A * B)) : map fst l = l.*1.
Proof. induction l as [|[a b] l IH]; simpl; [reflexivity | now rewrite IH]. Qed.

(** X4: [capturedKeys], the key list of the diagnostics of [CapturedFrom]
    and [CapturedOfTypeFromCall], names every key of the store exactly
    once. *)
Theorem capturedKeys_exact (x : BaseTest) :
  List.NoDup (capturedKeys x) /\
  forall k, In k (capturedKeys x) <-> bt_capsFrom x !! k <> None.
Proof.
  unfold capturedKeys, capsFrom_entries. rewrite map_fst_fmap. split.
  - apply NoDup_ListNoDup, NoDup_fst_map_to_list.
  - intros k. rewrite <- list_elem_of_In, list_elem_of_fmap. split.
    + intros ([k' b] & -> & H). apply elem_of_map_to_list in H. simpl. congruence.
    + destruct (bt_capsFrom x !! k) as [b|] eqn:E; [|contradiction].
      intros _. exists (k, b). split; [reflexivity|]. now apply elem_of_map_to_list.
Qed.

(** X5: [FirstCapturedOfType] returns a value captured under some key
    whose type is assignable to that of [expectTypeOf], and leaves the
    store unchanged; it never panics on its [[0]] (an empty result has
    already failed the test), only on a [nil] caller frame. *)
Theorem FirstCapturedOfType_outcome (lower_table : Z -> bool)
  (outer : list RawFrame) (e : Value) (x : BaseTest) :
  (forall v x', FirstCapturedOfType lower_table outer e x = Ok v x' ->
     x' = x /\ exists key bucket, bt_capsFrom x !! key = Some bucket /\
                                  In v bucket /\ assignable_to_type_of e v) /\
  (forall msg x', FirstCapturedOfType lower_table outer e x = Fatal msg x' -> x' = x) /\
  (forall msg, FirstCapturedOfType lower_table outer e x = Panic msg -> msg = nil_deref).
Proof.
  unfold FirstCapturedOfType.
  destruct (CapturedOfType lower_table _ e x) as [caps x1|m x1|m] eqn:E;
    split; [| split | | split | | split].
  - intros v x' H. apply CapturedOfType_Ok in E as [-> [-> Hne]].
    destruct (List.concat _) as [|v0 rest] eqn:Ec; [contradiction|].
    injection H as <- <-. split; [reflexivity|].
    apply CapturedOfType_members. rewrite Ec. now left.
  - intros msg x' H. destruct caps; discriminate.
  - intros msg H. destruct caps; [|discriminate].
    apply CapturedOfType_Ok in E as [_ [_ Hne]]. contradiction.
  - intros v x' H. discriminate.
  - intros msg x' H. injection H as _ <-. unfold CapturedOfType in E. cbv zeta in E.
    destruct (Nat.eqb _ 0); [destruct (caller_log _ _ _); congruence | discriminate].
  - intros msg H. discriminate.
  - intros v x' H. discriminate.
  - intros msg x' H. discriminate.
  - intros msg H. injection H as <-. unfold CapturedOfType in E. cbv zeta in E.
    destruct (Nat.eqb _ 0); [destruct (caller_log _ _ _); congruence | discriminate].
Qed.

(** X6: the largest [int] index overflows in [index+1] and passes the
    bound check of [Captured], which then panics on the slice access
    instead of failing the test. *)
Theorem Captured_max_index_panics (e : Value) (x : BaseTest) :
  bt_captured x <> [] -> Z.of_nat (length (bt_captured x)) <= 2 ^ 63 - 1 ->
  Captured (2 ^ 63 - 1) e x = Panic index_out_of_range.
Proof.
  intros Hne Hlen. unfold Captured. cbv zeta.
  rewrite (length_nonempty_eqb _ Hne).
  replace (wrap64 (2 ^ 63 - 1 + 1)) with (- 2 ^ 63) by reflexivity.
  replace (Z.of_nat (length (bt_captured x)) >=? - 2 ^ 63) with true
    by (symmetry; apply Z.geb_le; lia).
  replace (Z.of_nat (length (bt_captured x)) <=? 2 ^ 63 - 1) with true
    by (symmetry; apply Z.leb_le; lia).
  now rewrite orb_true_r.
Qed.


(** ** The stack walk *)


(** X7: the frame sequence of [BuildCallerStack] is exactly the frames
    at depths 3, 4, ... up to the first depth that does not resolve (the
    end of the stack, a ["<autogenerated>"] frame, or a [nil]
    [runtime.Func]): the frames beyond that depth are never walked.  It
    is empty when depth 1, the frame of [BuildCallerStack] itself, does
    not resolve. *)
Theorem BuildCallerStack_Stack_depths (lower_table : Z -> bool)
  (stk : list RawFrame) (j : nat) (r : Ref) :
  nth_error (fs_Stack (BuildCallerStack lower_table stk)) j = Some r <->
  CallerFuncInfo stk 1 <> None /\
  (forall k, (k < j)%nat -> CallerFuncInfo stk (3 + k) <> None) /\
  CallerFuncInfo stk (3 + j) = Some r.
Proof.
  rewrite BuildCallerStack_Stack. destruct (CallerFuncInfo stk 1) as [this|].
  - rewrite walked_nth. split.
    + intros (_ & H2 & H3). repeat split; [discriminate | exact H2 | exact H3].
    + intros (_ & H2 & H3). repeat split; [|exact H2|exact H3].
      destruct (Nat.lt_ge_cases (3 + j) (length stk)) as [Hl|Hl]; [lia|].
      rewrite CallerFuncInfo_beyond in H3 by exact Hl. discriminate.
  - rewrite nth_error_nil. split; [discriminate|]. intros (H & _). now contradiction H.
Qed.


(** X8: [GetCallerInfo]'s frame, the [Caller] of the walk, is the first
    walked frame whose package differs from that of depth 1, the frame of
    [BuildCallerStack] itself (so the package [core]); it is [nil] when
    every walked frame is in that package, and when depth 1 does not
    resolve. *)
Theorem BuildCallerStack_Caller_first_outside (lower_table : Z -> bool)
  (stk : list RawFrame) :
  fs_Caller (BuildCallerStack lower_table stk) =
  match CallerFuncInfo stk 1 with
  | None => None
  | Some this =>
      List.find (fun f => negb (String.eqb (fi_Package (ref_info f))
                                           (fi_Package (ref_info this))))
                (fs_Stack (BuildCallerStack lower_table stk))
  end.
Proof. apply BuildCallerStack_Caller_find. Qed.


(* ------------------------------------------------------------------ *)
(** ** The environment and argument helpers *)

Lemma mod2_SS (k : nat) : Nat.modulo (S (S k)) 2 = Nat.modulo k 2.
Proof.
  replace (S (S k)) with (k + 1 * 2)%nat by lia.
  apply Nat.Div0.mod_add.
Qed.

Lemma splitPairs_even (l : list string) :
  Nat.modulo (length l) 2 = 0%nat ->
  exists ps, splitPairs l = Some ps /\
    Forall (fun p => length p = 2%nat) ps /\ map (hd "") ps = pair_names l.
Proof.
  revert l. fix IH 1. intros [|a [|b rest]] Hm.
  - exists []. auto.
  - discriminate Hm.
  - simpl length in Hm. rewrite mod2_SS in Hm.
    destruct (IH rest Hm) as (ps & Hs & Hf & Hn).
    exists ([a; b] :: ps). simpl. rewrite Hs, Hn. simpl.
    split; [reflexivity | split; [constructor; auto | reflexivity]].
Qed.

Lemma setPairs_pairs (ps : list (list string)) (x : Harness) (s : OsState) :
  Forall (fun p => length p = 2%nat) ps ->
  exists x' s', setPairs ps x s = HOk x' s'.
Proof.
  revert x s. induction ps as [|p ps IH]; intros x s Hf.
  - eauto.
  - inversion Hf as [|? ? Hp Hf']; subst.
    destruct p as [|n [|v [|]]]; try discriminate Hp.
    simpl. apply IH, Hf'.
Qed.

Lemma os_Setenv_lookup_ne (k v j : string) (s : OsState) :
  j <> k -> os_env (os_Setenv k v s) !! j = os_env s !! j.
Proof.
  intros Hne. unfold os_Setenv. destruct (setenv_ok k v); simpl; [|reflexivity].
  apply lookup_insert_ne. congruence.
Qed.

Lemma os_Setenv_Args (k v : string) (s : OsState) :
  os_Args (os_Setenv k v s) = os_Args s.
Proof. unfold os_Setenv. destruct (setenv_ok k v); reflexivity. Qed.

Lemma os_Setenv_settable (k v : string) (s : OsState) :
  env_settable s -> env_settable (os_Setenv k v s).
Proof.
  unfold env_settable, os_Setenv. intros H j w.
  destruct (setenv_ok k v) eqn:Ek; [|apply H]. simpl.
  destruct (decide (j = k)) as [->|Hne].
  - rewrite lookup_insert_eq. intros [= <-]. exact Ek.
  - rewrite lookup_insert_ne by congruence. apply H.
Qed.

Lemma setenv_ok_nonempty (v : string) : setenv_ok "" v = false.
Proof. reflexivity. Qed.

(** The restorer [restoreExistingEnvAfter] registers puts back, at [name],
    the value [name] had when it was called, and leaves every other
    variable as the previous [afterFunc] left it. *)
Lemma restoreExistingEnvAfter_lookup (x : Harness) (name : string)
  (s0 t : OsState) (j : string) :
  env_settable s0 ->
  os_env (h_afterFunc (restoreExistingEnvAfter x name s0) t) !! j =
    if String.eqb j name then os_env s0 !! name
    else os_env (h_afterFunc x t) !! j.
Proof.
  intros Hs. unfold restoreExistingEnvAfter, os_LookupEnv.
  destruct (String.eqb j name) eqn:Ej.
  - apply String.eqb_eq in Ej. subst j.
    destruct (String.eqb name "") eqn:En.
    + apply String.eqb_eq in En. subst name. simpl.
      rewrite lookup_delete_eq. symmetry.
      destruct (os_env s0 !! "") as [v|] eqn:E0; [|reflexivity].
      apply Hs in E0. discriminate E0.
    + destruct (os_env s0 !! name) as [v|] eqn:E0; simpl.
      * unfold os_Setenv. rewrite (Hs _ _ E0). simpl. apply lookup_insert_eq.
      * apply lookup_delete_eq.
  - apply String.eqb_neq in Ej.
    destruct (if String.eqb name "" then None else os_env s0 !! name); simpl.
    + apply os_Setenv_lookup_ne. exact Ej.
    + apply lookup_delete_ne. congruence.
Qed.

Lemma restoreExistingEnvAfter_Args (x : Harness) (name : string) (s0 t : OsState) :
  os_Args (h_afterFunc (restoreExistingEnvAfter x name s0) t) =
  os_Args (h_afterFunc x t).
Proof.
  unfold restoreExistingEnvAfter.
  destruct (os_LookupEnv name s0); simpl; [apply os_Setenv_Args | reflexivity].
Qed.

Lemma setPairs_restore (ps : list (list string)) (x x' : Harness)
  (s s' : OsState) :
  Forall (fun p => length p = 2%nat) ps ->
  List.NoDup (map (hd "") ps) ->
  env_settable s ->
  setPairs ps x s = HOk x' s' ->
  (forall t j, In j (map (hd "") ps) ->
     os_env (h_afterFunc x' t) !! j = os_env s !! j) /\
  (forall t j, ~ In j (map (hd "") ps) ->
     os_env (h_afterFunc x' t) !! j = os_env (h_afterFunc x t) !! j) /\
  (forall j, ~ In j (map (hd "") ps) -> os_env s' !! j = os_env s !! j) /\
  (forall t, os_Args (h_afterFunc x' t) = os_Args (h_afterFunc x t)) /\
  os_Args s' = os_Args s.
Proof.
  revert x s. induction ps as [|p ps IH]; intros x s Hf Hnd Hs Hp.
  - simpl in Hp. injection Hp as <- <-. simpl.
    repeat split; intros; try contradiction; reflexivity.
  - inversion Hf as [|? ? Hl Hf']; subst.
    destruct p as [|n [|v [|]]]; try discriminate Hl.
    simpl in Hp. simpl in Hnd. inversion Hnd as [|? ? Hn Hnd']; subst.
    destruct (IH _ _ Hf' Hnd' (os_Setenv_settable n v s Hs) Hp)
      as (H1 & H2 & H3 & H4 & H5).
    simpl. repeat split.
    + intros t j [->|Hj].
      * destruct (in_dec String.string_dec j (map (hd "") ps)) as [Hi|Hi];
          [contradiction|].
        rewrite (H2 t j Hi), restoreExistingEnvAfter_lookup by exact Hs.
        rewrite String.eqb_refl. reflexivity.
      * rewrite (H1 t j Hj). apply os_Setenv_lookup_ne. congruence.
    + intros t j Hj.
      rewrite (H2 t j (fun H => Hj (or_intror H))),
        restoreExistingEnvAfter_lookup by exact Hs.
      replace (String.eqb j n) with false; [reflexivity|].
      symmetry. apply String.eqb_neq. intros ->. apply Hj. left. reflexivity.
    + intros j Hj. rewrite (H3 j (fun H => Hj (or_intror H))).
      apply os_Setenv_lookup_ne. intros ->. apply Hj. left. reflexivity.
    + intros t. rewrite H4. apply restoreExistingEnvAfter_Args.
    + rewrite H5. apply os_Setenv_Args.
Qed.


(** X9: [SetEnvs] checks its arguments before it sets anything: with no
    arguments it does nothing; a non-[nil] list of fewer than two strings,
    or an odd count of three or more, fails the test with the state
    untouched; an even list of two or more sets its first pair with
    [SetEnv], then the rest as [SetEnvs] would; and it never panics. *)
Theorem SetEnvs_arguments (x : Harness) (s : OsState) :
  SetEnvs None x s = HOk x s /\
  (forall l, (length l < 2)%nat ->
     SetEnvs (Some l) x s =
       HFatal ("must set at least one name and value pair! passed values "
               ++ fmt_strings l) x s) /\
  (forall l, (2 <= length l)%nat -> Nat.modulo (length l) 2 = 1%nat ->
     SetEnvs (Some l) x s =
       HFatal ("must pass names and values in even pairs! passed "
               ++ pretty (Z.of_nat (length l)) ++ " values " ++ fmt_strings l) x s) /\
  (forall n v rest, Nat.modulo (length rest) 2 = 0%nat ->
     SetEnvs (Some (n :: v :: rest)) x s =
       let (x1, s1) := SetEnv x n v s in
       match rest with
       | [] => HOk x1 s1
       | _ :: _ => SetEnvs (Some rest) x1 s1
       end) /\
  (forall o m, SetEnvs o x s <> HPanic m).
Proof.
  split; [reflexivity|]. split; [|split; [|split]].
  - intros l Hl. unfold SetEnvs. apply Nat.ltb_lt in Hl. rewrite Hl. reflexivity.
  - intros l H2 Hm. unfold SetEnvs.
    replace (Nat.ltb (length l) 2) with false
      by (symmetry; apply Nat.ltb_ge; exact H2).
    rewrite Hm. reflexivity.
  - intros n v rest Hm. unfold SetEnvs.
    destruct (splitPairs_even rest Hm) as (ps & Hs & _).
    simpl length. rewrite (mod2_SS (length rest)), Hm. simpl. rewrite Hs. simpl.
    destruct rest as [|a [|b rest']].
    + simpl in Hs. injection Hs as <-. reflexivity.
    + discriminate Hm.
    + reflexivity.
  - intros o m. unfold SetEnvs.
    destruct (match o with Some _ => _ | None => false end); [discriminate|].
    destruct (Nat.eqb _ 1) eqn:Em; [discriminate|].
    apply Nat.eqb_neq in Em.
    assert (Hm : Nat.modulo (length (match o with Some l => l | None => [] end)) 2 = 0%nat).
    { pose proof (Nat.mod_upper_bound
        (length (match o with Some l => l | None => [] end)) 2 ltac:(lia)). lia. }
    destruct (splitPairs_even _ Hm) as (ps & Hs & Hf & _). rewrite Hs.
    destruct (setPairs_pairs ps x s Hf) as (x' & s' & ->). discriminate.
Qed.


Lemma os_Setenv_lookup_eq (k v : string) (s : OsState) :
  setenv_ok k v = true -> os_env (os_Setenv k v s) !! k = Some v.
Proof. intros Hk. unfold os_Setenv. rewrite Hk. apply lookup_insert_eq. Qed.

Lemma os_LookupEnv_Setenv (k v : string) (s : OsState) :
  setenv_ok k v = true -> os_LookupEnv k (os_Setenv k v s) = Some v.
Proof.
  intros Hk. unfold os_LookupEnv.
  destruct (String.eqb k "") eqn:Ek.
  - apply String.eqb_eq in Ek. subst k. discriminate Hk.
  - apply os_Setenv_lookup_eq, Hk.
Qed.

(** X10: when the names given to [SetEnvs] are distinct and every variable
    of the environment could have been set, [Done] after [SetEnvs] on a
    fresh test puts the environment back exactly as it was, set and unset
    variables alike, and leaves [os.Args] as it was. *)
Theorem SetEnvs_Done_restores (l : list string) (s : OsState)
  (x' : Harness) (s' : OsState) :
  env_settable s ->
  List.NoDup (pair_names l) ->
  SetEnvs (Some l) NewHarness s = HOk x' s' ->
  os_env (Done x' s') = os_env s /\ os_Args (Done x' s') = os_Args s.
Proof.
  intros Hs Hnd H. unfold SetEnvs in H.
  destruct (Nat.ltb (length l) 2); [discriminate H|].
  destruct (Nat.eqb (Nat.modulo (length l) 2) 1) eqn:Em; [discriminate H|].
  apply Nat.eqb_neq in Em.
  assert (Hm : Nat.modulo (length l) 2 = 0%nat).
  { pose proof (Nat.mod_upper_bound (length l) 2 ltac:(lia)). lia. }
  destruct (splitPairs_even l Hm) as (ps & Hsp & Hf & Hn).
  rewrite Hsp in H. rewrite <- Hn in Hnd.
  destruct (setPairs_restore ps NewHarness x' s s' Hf Hnd Hs H)
    as (H1 & H2 & H3 & H4 & H5).
  unfold Done. split.
  - apply map_eq. intros j.
    destruct (in_dec String.string_dec j (map (hd "") ps)) as [Hi|Hi].
    + apply H1, Hi.
    + rewrite (H2 s' j Hi). simpl. apply H3, Hi.
  - rewrite H4. exact H5.
Qed.

(** X11: [Done] runs the restorers in the order they were registered, so
    when [SetEnvs] sets the same name twice on a fresh test, [Done] leaves
    that variable at the first value given, not at the value it had
    before. *)
Theorem SetEnvs_same_name_Done (n v1 v2 : string) (s : OsState) :
  setenv_ok n v1 = true -> setenv_ok n v2 = true ->
  match SetEnvs (Some [n; v1; n; v2]) NewHarness s with
  | HOk x' s' => os_env s' !! n = Some v2 /\ os_env (Done x' s') !! n = Some v1
  | _ => False
  end.
Proof.
  intros H1 H2. unfold SetEnvs. simpl.
  split; [apply os_Setenv_lookup_eq, H2|].
  unfold Done, restoreExistingEnvAfter at 1.
  rewrite (os_LookupEnv_Setenv n v1 s H1). simpl.
  apply os_Setenv_lookup_eq, H1.
Qed.

(** X12: [SetArgs(args...)] makes [os.Args] exactly [args] (a non-[nil]
    slice, even when empty) and leaves the environment alone, so
    [commandArg] gives the first argument or ["fakeCommand"]; the next
    [Done] puts [os.Args] back when it was non-[nil] before, and otherwise
    leaves it as the earlier [afterFunc] does. *)
Theorem SetArgs_Done (args : list string) (x : Harness) (s : OsState) :
  let (x', s') := SetArgs args x s in
  os_Args s' = Some args /\ os_env s' = os_env s /\
  commandArg s' = match args with a :: _ => a | [] => "fakeCommand" end /\
  forall t,
    os_Args (Done x' t) =
      match os_Args s with Some a => Some a | None => os_Args (Done x t) end /\
    os_env (Done x' t) = os_env (Done x t).
Proof.
  unfold SetArgs, restoreExistingArgsAfter, commandArg, Done.
  destruct (os_Args s) as [a|]; simpl;
    (split; [reflexivity | split; [reflexivity | split;
      [destruct args; reflexivity | intros t; split; reflexivity]]]).
Qed.

(* ------------------------------------------------------------------ *)
(** ** Capturing and retrieving by key; [parseName] and the raw name *)

(** X14: a capture made inside a mocked call can be read back by its key:
    after [Capture] with key [key], [CapturedFrom(key)] returns the values
    captured earlier under [key] followed by the new ones, and the other
    keys' buckets are unchanged. *)
Theorem Capture_CapturedFrom (lower_table : Z -> bool) (outer : list RawFrame)
  (vs : list Value) (x : BaseTest) (key : string) :
  MockedCall (BuildCallerStack lower_table
                (stack_from [frame_method "Capture" 260] outer)) = Some key ->
  match Capture lower_table outer vs x with
  | Ok _ x' =>
      (forall outer', CapturedFrom lower_table outer' key x' =
         Ok (match bt_capsFrom x !! key with Some c => c | None => [] end ++ vs) x') /\
      (forall k, k <> key -> bt_capsFrom x' !! k = bt_capsFrom x !! k)
  | _ => False
  end.
Proof.
  intros Hk. rewrite (Capture_mocked lower_table outer vs x key Hk). split.
  - intros outer'. apply CapturedFrom_found. simpl. apply lookup_insert_eq.
  - intros k Hne. simpl. apply lookup_insert_ne. congruence.
Qed.

Lemma Join_cons (a : string) (l : list string) (sep : string) :
  l <> [] -> Join (a :: l) sep = (a ++ sep ++ Join l sep)%string.
Proof. destruct l; [contradiction|reflexivity]. Qed.

Lemma Split_dot_ne (s : string) : Split_dot s <> [].
Proof.
  destruct s as [|c s]; simpl; [discriminate|].
  destruct (ascii_dec c "."%char); [discriminate|].
  destruct (Split_dot s); discriminate.
Qed.

Lemma Join_Split_dot (s : string) : Join (Split_dot s) "." = s.
Proof.
  induction s as [|c rest IH]; [reflexivity|]. simpl.
  pose proof (Split_dot_ne rest) as Hne.
  destruct (ascii_dec c "."%char) as [->|Hc].
  - rewrite Join_cons by exact Hne. rewrite IH. reflexivity.
  - destruct (Split_dot rest) as [|p ps]; [contradiction|].
    destruct ps as [|q ps]; [exact (f_equal (String c) IH)|].
    rewrite Join_cons in IH by discriminate. rewrite Join_cons by discriminate.
    exact (f_equal (String c) IH).
Qed.

Lemma Join_firstn_skipn (l : list string) (k : nat) (sep : string) :
  (0 < k < length l)%nat ->
  (Join (firstn k l) sep ++ sep ++ Join (skipn k l) sep)%string = Join l sep.
Proof.
  revert k. induction l as [|a l IH]; intros k Hk; simpl in Hk; [lia|].
  destruct k as [|[|k]]; [lia| |].
  - change (firstn 1 (a :: l)) with [a]. change (skipn 1 (a :: l)) with l.
    rewrite (Join_cons a l) by (destruct l; simpl in Hk; [lia|discriminate]).
    reflexivity.
  - change (firstn (S (S k)) (a :: l)) with (a :: firstn (S k) l).
    change (skipn (S (S k)) (a :: l)) with (skipn (S k) l).
    rewrite Join_cons by (destruct l; simpl in Hk; [lia|discriminate]).
    rewrite (Join_cons a l) by (destruct l; simpl in Hk; [lia|discriminate]).
    rewrite append_assoc, append_assoc.
    rewrite IH by lia. reflexivity.
Qed.

Lemma Join_skipn (l : list string) (i : nat) (sep : string) :
  (S i < length l)%nat ->
  Join (skipn i l) sep = (nth i l "" ++ sep ++ Join (skipn (S i) l) sep)%string.
Proof.
  revert i. induction l as [|a l IH]; intros i Hi; simpl in Hi; [lia|].
  destruct i as [|i].
  - simpl. apply Join_cons. destruct l; simpl in Hi; [lia|discriminate].
  - simpl. apply IH. lia.
Qed.

Lemma skipn_last_one (l : list string) :
  l <> [] -> skipn (length l - 1) l = [nth (length l - 1) l ""].
Proof.
  induction l as [|a l IH]; intros Hl; [contradiction|].
  destruct l as [|b l]; [reflexivity|].
  specialize (IH ltac:(discriminate)). simpl length in IH |- *.
  replace (S (S (length l)) - 1)%nat with (S (length l)) by lia.
  replace (S (length l) - 1)%nat with (length l) in IH by lia.
  exact IH.
Qed.

Lemma append_empty_r (s : string) : (s ++ "")%string = s.
Proof. induction s as [|c s IH]; simpl; [reflexivity | now rewrite IH]. Qed.

Lemma findObjectRef_from_bound (k i : nat) (l : list string) :
  findObjectRef_from k l = Some i -> (k <= i < k + length l)%nat.
Proof.
  revert k. induction l as [|s l IH]; intros k H; simpl in H; [discriminate|].
  destruct (isObjectRef s).
  - injection H as <-. simpl. lia.
  - apply IH in H. simpl. lia.
Qed.

(** X15: [parseName] only cuts the raw name at dots.  When the name has a
    dot and no segment is in parentheses, [Package], a dot and [Function]
    give back the name.  Otherwise the namespace (when the receiver
    segment is not the first), the receiver segment as written and
    [Function] (when the receiver segment is not the last), joined by
    dots, give back the name; when the receiver segment is the last,
    [Function] is empty. *)
Theorem parseName_rebuilds_name (name file : string) (line : Z) :
  (2 <= length (Split_dot name))%nat ->
  match findObjectRef (Split_dot name) with
  | None =>
      (fi_Package (NewFuncInfo name file line) ++ "."
       ++ fi_Function (NewFuncInfo name file line))%string = name
  | Some i =>
      ((if Nat.eqb i 0 then "" else fi_Package (NewFuncInfo name file line) ++ ".")
       ++ nth i (Split_dot name) ""
       ++ (if Nat.ltb (S i) (length (Split_dot name))
           then "." ++ fi_Function (NewFuncInfo name file line) else ""))%string = name /\
      (Nat.ltb (S i) (length (Split_dot name)) = false ->
       fi_Function (NewFuncInfo name file line) = "")
  end.
Proof.
  intros H2. unfold NewFuncInfo, parseName. simpl fi_Name.
  replace (Nat.ltb (length (Split_dot name)) 2) with false
    by (symmetry; apply Nat.ltb_ge; exact H2).
  pose proof (Join_Split_dot name) as Hj.
  destruct (findObjectRef (Split_dot name)) as [i|] eqn:Ef.
  - apply findObjectRef_from_bound in Ef.
    destruct (Nat.ltb_spec (S i) (length (Split_dot name))) as [Hi|Hi].
    + split; [|discriminate]. destruct (Nat.eqb_spec i 0) as [->|Hi0].
      * transitivity (Join (skipn 0 (Split_dot name)) "."); [|exact Hj].
        rewrite (Join_skipn (Split_dot name) 0 "." Hi). reflexivity.
      * transitivity (Join (firstn i (Split_dot name)) "." ++ "."
                      ++ Join (skipn i (Split_dot name)) ".")%string.
        -- rewrite (Join_skipn (Split_dot name) i "." Hi), append_assoc. reflexivity.
        -- rewrite Join_firstn_skipn by lia. exact Hj.
    + assert (Hl : i = (length (Split_dot name) - 1)%nat) by lia.
      assert (Hs : skipn (S i) (Split_dot name) = []).
      { apply skipn_all2. lia. }
      split; [|intros _; cbn [fi_Function]; rewrite Hs; reflexivity].
      destruct (Nat.eqb_spec i 0) as [->|Hi0]; [lia|].
      rewrite append_empty_r.
      transitivity (Join (firstn i (Split_dot name)) "." ++ "."
                    ++ Join (skipn i (Split_dot name)) ".")%string.
      * subst i. rewrite skipn_last_one by (intros E; rewrite E in H2; simpl in H2; lia).
        rewrite append_assoc. reflexivity.
      * rewrite Join_firstn_skipn by lia. exact Hj.
  - transitivity (Join (firstn (length (Split_dot name) - 1) (Split_dot name)) "."
                  ++ "." ++ Join (skipn (length (Split_dot name) - 1) (Split_dot name)) ".")%string.
    + rewrite skipn_last_one by (intros E; rewrite E in H2; simpl in H2; lia).
      reflexivity.
    + rewrite Join_firstn_skipn by lia. exact Hj.
Qed.



(* ================================================================== *)
(** * Witnesses: the theorems with hypotheses applied to concrete stacks *)

(** A capture made straight from [TestFoo], with no mock on the stack:
    [Mocker] is [TestFoo]. *)
Lemma BuildCallerStack_no_mock_Mocker_first_witness :
  fs_Mocked (BuildCallerStack (fun _ => false)
               (stack_from [frame_method "Capture" 260] outer_direct)) = None /\
  fs_Mocker (BuildCallerStack (fun _ => false)
               (stack_from [frame_method "Capture" 260] outer_direct)) =
    Some (3%nat, NewFuncInfo "example.com/app.TestFoo" "/src/app/app_test.go" 12).
Proof.
  apply (BuildCallerStack_no_mock_Mocker_first (fun _ => false)
           (stack_from [frame_method "Capture" 260] outer_direct)
           (3%nat, NewFuncInfo "example.com/app.TestFoo" "/src/app/app_test.go" 12)
           (tl (fs_Stack (BuildCallerStack (fun _ => false)
                            (stack_from [frame_method "Capture" 260] outer_direct))))).
  - vm_compute. reflexivity.
  - apply Forall_forall. intros g Hg. apply list_elem_of_In in Hg.
    vm_compute in Hg. destruct Hg as [<-|[<-|[<-|[]]]]; reflexivity.
Defined.

(** [GetMockedCallName] called straight from [TestFoo] panics. *)
Lemma GetMockedCallName_no_mock_panics_witness :
  GetMockedCallName (fun _ => false) outer_direct New = Panic nil_deref.
Proof.
  apply (GetMockedCallName_no_mock_panics (fun _ => false) outer_direct New).
  intros i r Hr. destruct (Nat.lt_ge_cases i 6) as [Hi|Hi].
  - do 6 (destruct i as [|i]; [vm_compute in Hr; injection Hr as <-; reflexivity|]).
    lia.
  - rewrite CallerFuncInfo_beyond in Hr; [discriminate Hr|].
    vm_compute. lia.
Defined.

(** A value ["a"] captured inside the [MockLogger.Info] action, then asked
    for as an [int] from that call: the diagnostic lists no values. *)
Lemma CapturedOfTypeFromCall_outcome_witness :
  match Capture (fun _ => false) outer_mocked [VString "a"] New with
  | Ok _ x1 =>
      bt_capsFrom x1 !! "Service.Run.MockLogger.Info" = Some [VString "a"] /\
      CapturedOfTypeFromCall (fun _ => false) outer_mocked (VInt 0)
        "Service.Run.MockLogger.Info" x1 =
        Fatal ("at example.com/app.TestFoo.func1 at /src/app/app_test.go:15"
               ++ " there were no captures of type int from mock call"
               ++ " 'Service.Run.MockLogger.Info'!  keys [Service.Run.MockLogger.Info]"
               ++ "  values []")%string x1
  | _ => False
  end.
Proof.
  destruct (Capture (fun _ => false) outer_mocked [VString "a"] New) as [u x1|m x1|m] eqn:E;
    vm_compute in E; [injection E as _ Ex1 | discriminate E..].
  assert (Hb : bt_capsFrom x1 !! "Service.Run.MockLogger.Info" = Some [VString "a"])
    by (rewrite <- Ex1; vm_compute; reflexivity).
  assert (He : capturedOfType (VInt 0) [VString "a"] = []) by reflexivity.
  assert (Hc : caller_log (fun _ => false) [frame_method "CapturedOfTypeFromCall" 333]
                 outer_mocked = Some "example.com/app.TestFoo.func1 at /src/app/app_test.go:15")
    by (vm_compute; reflexivity).
  split; [exact Hb|].
  rewrite (proj2 (CapturedOfTypeFromCall_outcome (fun _ => false) outer_mocked (VInt 0)
                    "Service.Run.MockLogger.Info" x1 [VString "a"] Hb) He _ Hc).
  rewrite <- Ex1. vm_compute. reflexivity.
Defined.

(** After a capture inside the [MockLogger.Info] action, its bucket lies in
    [AllCaptured], so the value [FirstCapturedOfType] returns does too. *)
Lemma retrieved_in_AllCaptured_witness :
  match Capture (fun _ => false) outer_mocked [VString "a"] New with
  | Ok _ x1 =>
      buckets_in_global x1 /\
      (forall e v x', FirstCapturedOfType (fun _ => false) outer_mocked e x1 = Ok v x' ->
                      In v (AllCaptured x1))
  | _ => False
  end.
Proof.
  destruct (Capture (fun _ => false) outer_mocked [VString "a"] New) as [u x1|m x1|m] eqn:E;
    [| vm_compute in E; discriminate E..].
  destruct u.
  assert (Hb : buckets_in_global x1)
    by exact (Capture_buckets_in_global (fun _ => false) outer_mocked [VString "a"]
                New x1 buckets_in_global_New E).
  split; [exact Hb|].
  exact (proj2 (proj2 (retrieved_in_AllCaptured (fun _ => false) outer_mocked x1 Hb))).
Defined.

(** One captured value, asked for at index [math.MaxInt]. *)
Lemma Captured_max_index_panics_witness :
  Captured (2 ^ 63 - 1) (VInt 0)
    {| bt_captured := [VInt 42]; bt_capsFrom := ∅; bt_logs := [] |} =
  Panic index_out_of_range.
Proof.
  apply (Captured_max_index_panics (VInt 0)
           {| bt_captured := [VInt 42]; bt_capsFrom := ∅; bt_logs := [] |}).
  - discriminate.
  - simpl. lia.
Defined.

(** Two variables, one of them already set, restored by [Done]. *)
Lemma SetEnvs_Done_restores_witness :
  match SetEnvs (Some ["APP_MODE"; "test"; "HOME"; "/tmp"]) NewHarness
          {| os_env := <["HOME" := "/root"]> ∅; os_Args := None |} with
  | HOk x' s' =>
      os_env (Done x' s') = <["HOME" := "/root"]> ∅ /\ os_Args (Done x' s') = None
  | _ => False
  end.
Proof.
  destruct (SetEnvs (Some ["APP_MODE"; "test"; "HOME"; "/tmp"]) NewHarness
              {| os_env := <["HOME" := "/root"]> ∅; os_Args := None |})
    as [x' s'|m x' s'|m] eqn:E; [| vm_compute in E; discriminate E..].
  assert (Hs : env_settable {| os_env := <["HOME" := "/root"]> ∅; os_Args := None |}).
  { intros k v H. simpl in H. destruct (decide (k = "HOME")) as [->|Hne].
    - rewrite lookup_insert_eq in H. injection H as <-. reflexivity.
    - rewrite lookup_insert_ne, lookup_empty in H by congruence. discriminate H. }
  assert (Hn : List.NoDup (pair_names ["APP_MODE"; "test"; "HOME"; "/tmp"])).
  { simpl. constructor; [intros [H|[]]; discriminate H|].
    constructor; [intros []|constructor]. }
  exact (SetEnvs_Done_restores ["APP_MODE"; "test"; "HOME"; "/tmp"]
           {| os_env := <["HOME" := "/root"]> ∅; os_Args := None |} x' s' Hs Hn E).
Defined.

(** [HOME=/root] before; [SetEnvs("HOME", "/a", "HOME", "/b")] then [Done]
    leaves [HOME=/a]. *)
Lemma SetEnvs_same_name_Done_witness :
  os_env {| os_env := <["HOME" := "/root"]> ∅; os_Args := None |} !! "HOME" = Some "/root" /\
  match SetEnvs (Some ["HOME"; "/a"; "HOME"; "/b"]) NewHarness
          {| os_env := <["HOME" := "/root"]> ∅; os_Args := None |} with
  | HOk x' s' => os_env s' !! "HOME" = Some "/b" /\ os_env (Done x' s') !! "HOME" = Some "/a"
  | _ => False
  end.
Proof.
  split; [vm_compute; reflexivity|].
  apply (SetEnvs_same_name_Done "HOME" "/a" "/b"
           {| os_env := <["HOME" := "/root"]> ∅; os_Args := None |}); reflexivity.
Defined.

(** A value captured inside the [MockLogger.Info] action is read back from
    its key. *)
Lemma Capture_CapturedFrom_witness :
  match Capture (fun _ => false) outer_mocked [VString "a"] New with
  | Ok _ x' =>
      (forall outer', CapturedFrom (fun _ => false) outer' "Service.Run.MockLogger.Info" x' =
         Ok (match bt_capsFrom New !! "Service.Run.MockLogger.Info" with
             | Some c => c | None => [] end ++ [VString "a"]) x') /\
      (forall k, k <> "Service.Run.MockLogger.Info" ->
                 bt_capsFrom x' !! k = bt_capsFrom New !! k)
  | _ => False
  end.
Proof.
  apply (Capture_CapturedFrom (fun _ => false) outer_mocked [VString "a"] New
           "Service.Run.MockLogger.Info").
  vm_compute. reflexivity.
Defined.

(** A closure inside a pointer-receiver method. *)
Lemma parseName_rebuilds_name_witness :
  match findObjectRef (Split_dot "example.com/app.(*Service).Run.func1") with
  | None =>
      (fi_Package (NewFuncInfo "example.com/app.(*Service).Run.func1" "/src/app/app.go" 20)
       ++ "." ++ fi_Function (NewFuncInfo "example.com/app.(*Service).Run.func1"
                                "/src/app/app.go" 20))%string =
      "example.com/app.(*Service).Run.func1"
  | Some i =>
      ((if Nat.eqb i 0 then ""
        else fi_Package (NewFuncInfo "example.com/app.(*Service).Run.func1"
                           "/src/app/app.go" 20) ++ ".")
       ++ nth i (Split_dot "example.com/app.(*Service).Run.func1") ""
       ++ (if Nat.ltb (S i) (length (Split_dot "example.com/app.(*Service).Run.func1"))
           then "." ++ fi_Function (NewFuncInfo "example.com/app.(*Service).Run.func1"
                                      "/src/app/app.go" 20)
           else ""))%string = "example.com/app.(*Service).Run.func1" /\
      (Nat.ltb (S i) (length (Split_dot "example.com/app.(*Service).Run.func1")) = false ->
       fi_Function (NewFuncInfo "example.com/app.(*Service).Run.func1" "/src/app/app.go" 20)
         = "")
  end.
Proof.
  apply (parseName_rebuilds_name "example.com/app.(*Service).Run.func1" "/src/app/app.go" 20).
  vm_compute. lia.
Defined.

(** [TestFoo], run by [testing.tRunner], reaches outside this package. *)
Lemma Capture_outcome_witness :
  reaches_outside outer_direct /\
  let stack := BuildCallerStack (fun _ => false)
                 (stack_from [frame_method "Capture" 260] outer_direct) in
  (fs_Mocked stack = None ->
   exists c, fs_Caller stack = Some c /\
   Capture (fun _ => false) outer_direct [VString "a"] New =
     Ok tt {| bt_captured := bt_captured New ++ [VString "a"];
              bt_capsFrom := bt_capsFrom New;
              bt_logs := bt_logs New ++ ["NO MOCK FOUND FOR CAPTURE from "
                                           ++ LogString (ref_info c)]%string |}) /\
  (forall m, fs_Mocked stack = Some m ->
   exists mr, fs_Mocker stack = Some mr /\
   Capture (fun _ => false) outer_direct [VString "a"] New =
     Ok tt {| bt_captured := bt_captured New ++ [VString "a"];
              bt_capsFrom :=
                <[Join [fi_Object (ref_info mr); fi_Function (ref_info mr);
                        fi_Object (ref_info m); fi_Function (ref_info m)] "." :=
                  match bt_capsFrom New !! Join [fi_Object (ref_info mr);
                          fi_Function (ref_info mr); fi_Object (ref_info m);
                          fi_Function (ref_info m)] "." with
                  | Some caps => caps
                  | None => []
                  end ++ [VString "a"]]> (bt_capsFrom New);
              bt_logs := bt_logs New |}) /\
  (forall outer1 outer2 outer3 key vs1 vs2 y,
   MockedCall (BuildCallerStack (fun _ => false)
                 (stack_from [frame_method "Capture" 260] outer1)) = Some key ->
   MockedCall (BuildCallerStack (fun _ => false)
                 (stack_from [frame_method "Capture" 260] outer2)) = Some key ->
   exists y1 y2,
     Capture (fun _ => false) outer1 vs1 y = Ok tt y1 /\
     Capture (fun _ => false) outer2 vs2 y1 = Ok tt y2 /\
     CapturedFrom (fun _ => false) outer3 key y2 =
       Ok (match bt_capsFrom y !! key with
           | Some caps => caps
           | None => []
           end ++ vs1 ++ vs2) y2).
Proof.
  assert (Hr : reaches_outside outer_direct).
  { exists [], (raw_frame "example.com/app.TestFoo" 12), runner_frames.
    split; [reflexivity|]. split; [reflexivity|]. split; [reflexivity|].
    intros H. vm_compute in H. discriminate H. }
  split; [exact Hr|].
  exact (Capture_outcome (fun _ => false) outer_direct [VString "a"] New Hr).
Defined.

(** An empty store, asked for [int] values from [TestFoo]. *)
Lemma CapturedOfType_outcome_witness :
  reaches_outside outer_direct /\
  let caps := List.concat (map (fun kv => capturedOfType (VInt 0) kv.2)
                              (capsFrom_entries New)) in
  (forall v, In v caps <-> exists key bucket, bt_capsFrom New !! key = Some bucket /\
                                              In v bucket /\ assignable_to_type_of (VInt 0) v) /\
  (bt_capsFrom New = ∅ -> caps = []) /\
  (caps <> [] -> CapturedOfType (fun _ => false) outer_direct (VInt 0) New = Ok caps New) /\
  (caps = [] -> exists c,
   caller_log (fun _ => false) [frame_method "CapturedOfType" 302] outer_direct = Some c /\
   CapturedOfType (fun _ => false) outer_direct (VInt 0) New =
     Fatal ("There were no captured parameters of type " ++ fmt_T (VInt 0)
            ++ " for " ++ c)%string New).
Proof.
  assert (Hr : reaches_outside outer_direct).
  { exists [], (raw_frame "example.com/app.TestFoo" 12), runner_frames.
    split; [reflexivity|]. split; [reflexivity|]. split; [reflexivity|].
    intros H. vm_compute in H. discriminate H. }
  split; [exact Hr|].
  exact (CapturedOfType_outcome (fun _ => false) outer_direct (VInt 0) New Hr).
Defined.
